(** * MovieLens data preparation: mapping tables, acquisition, loaders, user splits

    A shallow embedding of [mapping_tables.py] and [data_fetching.py].

    The two Python modules are glue around library calls ([os], [urllib],
    [zipfile], [pandas], [sklearn]).  The library calls are embedded as
    small functions that follow the libraries' own code paths for the
    arguments the program passes; the program's functions are then
    written over them statement by statement.

    Conventions.
    - A path is the list of its components, relative to the working
      directory: ["data"; "splits"] is "data/splits", and [os.path.join]
      appends components.  The empty list is the working directory ".".
    - The world is the directory set, the file map, what each URL serves,
      and a trace of the observable library calls (prints, fetches,
      extractions).  A Python exception is a [Raise] result; the world
      reached when it was raised is kept, as in Python.
    - A written CSV file is kept as its header and records, a zip archive
      as its member list, any other file as its characters. *)

From Stdlib Require Import ZArith QArith Qround Lia Ascii String.
From stdpp Require Import gmap strings list fin_maps.

Local Open Scope string_scope.
Local Open Scope Z_scope.

(** ** Results and exceptions *)

Inductive exn :=
| KeyError | AttributeError | ValueError | IndexError
| FileNotFoundError | FileExistsError | NotADirectoryError | IsADirectoryError
| BadZipFile | URLError | ParserError.

Inductive result (A : Type) :=
| Ok (a : A)
| Raise (e : exn).
Arguments Ok {A} a.
Arguments Raise {A} e.

#[global] Instance exn_eq_dec : EqDecision exn.
Proof. solve_decision. Defined.

(** ** mapping_tables.py *)

Definition age_mapping : gmap Z string :=
  list_to_map
    [ (1, "Under 18"); (18, "18-24"); (25, "25-34"); (35, "35-44");
      (45, "45-49"); (50, "50-55"); (56, "56+") ].

Definition occupation_mapping : gmap Z string :=
  list_to_map
    [ (0, "other or not specified"); (1, "academic/educator"); (2, "artist");
      (3, "clerical/admin"); (4, "college/grad student");
      (5, "customer service"); (6, "doctor/health care");
      (7, "executive/managerial"); (8, "farmer"); (9, "homemaker");
      (10, "K-12 student"); (11, "lawyer"); (12, "programmer");
      (13, "retired"); (14, "sales/marketing"); (15, "scientist");
      (16, "self-employed"); (17, "technician/engineer");
      (18, "tradesman/craftsman"); (19, "unemployed"); (20, "writer") ].

(** ** pandas: cells, frames, column selection, [unique] *)

Inductive value :=
| VInt (z : Z)
| VStr (s : string)
| NaN.

#[global] Instance value_eq_dec : EqDecision value.
Proof. solve_decision. Defined.

(** A frame is column-oriented, as in pandas: the row labels and, per
    column, its name and its cells.  Column names may repeat. *)
Record DataFrame := mkDataFrame {
  index : list (list value);
  columns : list (string * list value)
}.

Definition column_names (df : DataFrame) : list string := (columns df).*1.
Definition nrows (df : DataFrame) : nat := length (index df).

(** What [dataframe[name]] evaluates to. *)
Inductive selection :=
| Series (cells : list value)
| SubFrame (cols : list (string * list value)).

(** [dataframe[name]]: KeyError when no column has the name, a Series when
    one has, a frame of all of them when several have. *)
Definition getitem (df : DataFrame) (name : string) : result selection :=
  match filter (λ c, c.1 = name) (columns df) with
  | [] => Raise KeyError
  | [c] => Ok (Series c.2)
  | cs => Ok (SubFrame cs)
  end.

(** [Series.unique()]: the distinct cells in order of first appearance. *)
Fixpoint unique_from (seen : list value) (cells : list value) : list value :=
  match cells with
  | [] => []
  | v :: cells' =>
      if decide (v ∈ seen) then unique_from seen cells'
      else v :: unique_from (v :: seen) cells'
  end.

Definition unique (cells : list value) : list value := unique_from [] cells.

(** [.unique()] on the result of a selection; a frame has no such method. *)
Definition selection_unique (sel : selection) : result (list value) :=
  match sel with
  | Series cells => Ok (unique cells)
  | SubFrame _ => Raise AttributeError
  end.

(** [pd.DataFrame(ids, columns=[name])] from a one-dimensional array. *)
Definition frame_of_array (ids : list value) (name : string) : DataFrame :=
  {| index := (λ i, [VInt (Z.of_nat i)]) <$> seq 0 (length ids);
     columns := [(name, ids)] |}.

(** ** pandas: [read_csv] as the loaders call it

    [read_csv(path, sep="::", header=None, names=col_names,
    engine='python', encoding='ISO-8859-1')].  A separator longer than one
    character is a regular expression, so the python engine reads the
    file line by line, strips each line, and splits it with [re.split];
    ISO-8859-1 maps every byte to one character, so a file is its
    characters.  Conversion of cell text to numbers (dtype inference) is
    not modelled: a cell is kept as the text of its field. *)

(** [str.isspace] on the characters ISO-8859-1 can produce. *)
Definition is_space (c : ascii) : bool :=
  let n := nat_of_ascii c in
  ((9 <=? n) && (n <=? 13) || (28 <=? n) && (n <=? 32)
   || (n =? 133) || (n =? 160))%nat.

Definition is_LF (c : ascii) : bool := (nat_of_ascii c =? 10)%nat.
Definition is_CR (c : ascii) : bool := (nat_of_ascii c =? 13)%nat.
Definition is_colon (c : ascii) : bool := (nat_of_ascii c =? 58)%nat.

Definition text_of (rev_chars : list ascii) : string :=
  string_of_list_ascii (rev rev_chars).

(** Iterating a file opened with [newline=""]: a line ends at LF, CR or
    CR LF, and keeps its terminator.  [cur] holds the characters of the
    line being read, last one first. *)
Fixpoint readlines_from (cur : list ascii) (s : string) : list string :=
  match s with
  | EmptyString =>
      match cur with
      | [] => []
      | _ => [text_of cur]
      end
  | String c s' =>
      if is_LF c then text_of (c :: cur) :: readlines_from [] s'
      else if is_CR c then
        match s' with
        | String c' s'' =>
            if is_LF c' then text_of (c' :: c :: cur) :: readlines_from [] s''
            else text_of (c :: cur) :: readlines_from [] s'
        | EmptyString => [text_of (c :: cur)]
        end
      else readlines_from (c :: cur) s'
  end.

Definition readlines (s : string) : list string := readlines_from [] s.

(** [str.strip()]. *)
Fixpoint lstrip_chars (cs : list ascii) : list ascii :=
  match cs with
  | c :: cs' => if is_space c then lstrip_chars cs' else cs
  | [] => []
  end.

Definition strip (s : string) : string :=
  string_of_list_ascii
    (rev (lstrip_chars (rev (lstrip_chars (list_ascii_of_string s))))).

(** [re.compile("::").split(line)]: leftmost, non-overlapping matches. *)
Fixpoint split_from (cur : list ascii) (s : string) : list string :=
  match s with
  | EmptyString => [text_of cur]
  | String c s' =>
      if is_colon c then
        match s' with
        | String c' s'' =>
            if is_colon c' then text_of cur :: split_from [] s''
            else split_from (c :: cur) s'
        | EmptyString => [text_of (c :: cur)]
        end
      else split_from (c :: cur) s'
  end.

Definition split_fields (line : string) : list string := split_from [] line.

(** The rows the parser sees: the first line comes from [readline()]
    (the empty string on an empty file), the others from the iteration;
    each is stripped and split. *)
Definition raw_rows (s : string) : list (list string) :=
  let lines := match readlines s with [] => [""] | ls => ls end in
  (λ line, split_fields (strip line)) <$> lines.

(** [skip_blank_lines]: a row is dropped when it is one blank field. *)
Definition is_blank_row (row : list string) : bool :=
  match row with
  | [] => true
  | [f] => bool_decide (strip f = "")
  | _ => false
  end.

Definition data_rows (s : string) : list (list string) :=
  filter (λ row, is_blank_row row = false) (raw_rows s).

(** Cell [j] of a row, as the field read; a row that is too short is
    filled with NaN.  The conversion of a column of fields to numbers,
    which pandas makes afterwards, is not part of this model: it leaves
    the number of rows and the column names as they are. *)
Definition cell (row : list string) (j : nat) : value :=
  match row !! j with
  | Some f => VStr f
  | None => NaN
  end.

(** Rows to a frame.  When the first row has more fields than there are
    names, its extra leading fields are row labels (the implicit index);
    a row wider than names plus labels is a ParserError. *)
Definition frame_of_rows (names : list string) (rows : list (list string))
  : result DataFrame :=
  let k := length names in
  let m := match rows with
           | first :: _ => (length first - k)%nat
           | [] => 0%nat
           end in
  if forallb (λ row, (length row <=? k + m)%nat) rows then
    Ok {| index :=
            match m with
            | O => (λ i, [VInt (Z.of_nat i)]) <$> seq 0 (length rows)
            | _ => (λ row, cell row <$> seq 0 m) <$> rows
            end;
          columns :=
            (λ jn, (jn.2, (λ row, cell row (m + jn.1)) <$> rows))
              <$> zip (seq 0 k) names |}
  else Raise ParserError.

Definition parse_csv (names : list string) (s : string) : result DataFrame :=
  frame_of_rows names (data_rows s).

(** ** The world and the two monads *)

Definition path := list string.

(** A zip member: its name, and its data or [None] for a directory entry. *)
Definition member := (path * option string)%type.

Inductive content :=
| Text (chars : string)
| ZipArchive (members : list member)
| Csv (header : list string) (records : list (list value)).

Inductive event :=
| Printed (msg : string)
| UrlRetrieve (url : string) (dest : path)
| ExtractAll (archive : path) (dest : path).

Record world := mkWorld {
  dirs : gset path;
  files : gmap path content;
  net : gmap string content;
  trace : list event
}.

Definition with_dirs (d : gset path) (w : world) : world :=
  {| dirs := d; files := files w; net := net w; trace := trace w |}.
Definition with_files (f : gmap path content) (w : world) : world :=
  {| dirs := dirs w; files := f; net := net w; trace := trace w |}.
Definition with_trace (t : list event) (w : world) : world :=
  {| dirs := dirs w; files := files w; net := net w; trace := t |}.

#[global] Instance result_ret : MRet result := λ A a, Ok a.
#[global] Instance result_bind : MBind result := λ A B f m,
  match m with
  | Ok a => f a
  | Raise e => Raise e
  end.

(** A statement: from a world to a result and the world it leaves. *)
Definition M (A : Type) : Type := world → result A * world.

#[global] Instance M_ret : MRet M := λ A a w, (Ok a, w).
#[global] Instance M_bind : MBind M := λ A B f m w,
  match m w with
  | (Ok a, w') => f a w'
  | (Raise e, w') => (Raise e, w')
  end.

(** An expression that may raise but has no effect. *)
Definition lift {A} (r : result A) : M A := λ w, (r, w).

(** [try: m except e: pass] *)
Definition except_pass (e : exn) (m : M unit) : M unit := λ w,
  match m w with
  | (Raise e', w') => if decide (e' = e) then (Ok (), w') else (Raise e', w')
  | r => r
  end.

(** ** os and builtins *)

Definition join (p : path) (name : string) : path := (p ++ [name])%list.
Definition dirname (p : path) : path := removelast p.

(** How a path prints inside a message. *)
Definition show (p : path) : string := String.concat "/" p.

Definition isdir (w : world) (p : path) : bool :=
  bool_decide (p = [] ∨ p ∈ dirs w).
Definition isfile (w : world) (p : path) : bool :=
  bool_decide (is_Some (files w !! p)).
Definition path_exists (w : world) (p : path) : bool := isdir w p || isfile w p.

Definition os_path_exists (p : path) : M bool := λ w, (Ok (path_exists w p), w).
Definition os_path_isdir (p : path) : M bool := λ w, (Ok (isdir w p), w).

Definition print (msg : string) : M unit := λ w,
  (Ok (), with_trace (trace w ++ [Printed msg])%list w).

(** [os.mkdir(p)] *)
Definition mkdir (p : path) : M unit := λ w,
  if path_exists w p then (Raise FileExistsError, w)
  else if isdir w (dirname p) then (Ok (), with_dirs ({[p]} ∪ dirs w) w)
  else if isfile w (dirname p) then (Raise NotADirectoryError, w)
  else (Raise FileNotFoundError, w).

(** [os.makedirs(name)], by recursion on the components of [name] read
    from the last one: [tail] is the last component and [rhead] the ones
    before it, last first.  The head is created first when it is not
    empty and does not exist. *)
Fixpoint makedirs_rev (rname : list string) : M unit :=
  match rname with
  | [] => mkdir []
  | tail :: rhead =>
      e ← os_path_exists (rev rhead);
      (if bool_decide (rhead ≠ []) && negb e
       then except_pass FileExistsError (makedirs_rev rhead)
       else mret ());;
      mkdir (rev rname)
  end.

Definition makedirs (name : path) : M unit := makedirs_rev (rev name).

(** [open(p, "w")] followed by writing [c] and closing. *)
Definition write_file (p : path) (c : content) : M unit := λ w,
  if isdir w p then (Raise IsADirectoryError, w)
  else if isdir w (dirname p) then (Ok (), with_files (<[p := c]> (files w)) w)
  else if isfile w (dirname p) then (Raise NotADirectoryError, w)
  else (Raise FileNotFoundError, w).

(** [open(p)] followed by reading all of it. *)
Definition read_file (p : path) : M content := λ w,
  match files w !! p with
  | Some c => (Ok c, w)
  | None => if isdir w p then (Raise IsADirectoryError, w)
            else (Raise FileNotFoundError, w)
  end.

(** [urllib.request.urlretrieve(url, dest)]: the resource is opened
    first, then the destination. *)
Definition urlretrieve (url : string) (dest : path) : M unit := λ w,
  let w1 := with_trace (trace w ++ [UrlRetrieve url dest])%list w in
  match net w !! url with
  | Some c => write_file dest c w1
  | None => (Raise URLError, w1)
  end.

(** [ZipFile._extract_member] *)
Definition extract_member (dest : path) (m : member) : M unit :=
  let targetpath := (dest ++ m.1)%list in
  let upperdirs := dirname targetpath in
  e ← os_path_exists upperdirs;
  (if bool_decide (upperdirs ≠ []) && negb e then makedirs upperdirs
   else mret ());;
  match m.2 with
  | None =>
      d ← os_path_isdir targetpath;
      if negb d then mkdir targetpath else mret ()
  | Some data => write_file targetpath (Text data)
  end.

Fixpoint extract_members (dest : path) (ms : list member) : M unit :=
  match ms with
  | [] => mret ()
  | m :: ms' => extract_member dest m;; extract_members dest ms'
  end.

(** [zipfile.ZipFile(archive, 'r')]: the file is opened and its directory
    of members read; BadZipFile when it is no zip archive. *)
Definition ZipFile (archive : path) : M (list member) :=
  c ← read_file archive;
  match c with
  | ZipArchive ms => mret ms
  | _ => lift (Raise BadZipFile)
  end.

(** [with zipfile.ZipFile(archive, 'r') as z: z.extractall(dest)]: the
    archive is opened first, and [extractall] is called, and recorded,
    only when that succeeded. *)
Definition extractall (archive dest : path) : M unit :=
  ms ← ZipFile archive;
  (λ w, (Ok (), with_trace (trace w ++ [ExtractAll archive dest])%list w));;
  extract_members dest ms.

(** [df.to_csv(p, index=False)]: the header, then one record per row,
    written through [open(p, "w")].  Where the parent of [p] is not a
    directory the call fails before anything is written; the class of
    that error is the one [open] raises (pandas may raise a plain OSError
    of its own first). *)
Definition records (df : DataFrame) : list (list value) :=
  (λ i, (λ c, default NaN (c.2 !! i)) <$> columns df) <$> seq 0 (nrows df).

Definition to_csv (df : DataFrame) (p : path) : M unit :=
  write_file p (Csv (column_names df) (records df)).

(** [pd.read_csv(p, sep="::", header=None, names=names, ...)].  Reading
    leaves the world as it is.  [None]: the file is kept as a zip
    archive or as CSV records, and its characters are not modelled. *)
Definition read_csv (p : path) (names : list string) (w : world)
  : option (result DataFrame) :=
  match (read_file p w).1 with
  | Ok (Text s) => Some (parse_csv names s)
  | Ok _ => None
  | Raise e => Some (Raise e)
  end.

(** ** numpy and sklearn: [train_test_split]

    [train_test_split(array, test_size=t, random_state=seed)] with the
    defaults [train_size=None], [shuffle=True], [stratify=None] runs
    [_validate_shuffle_split] and then one round of [ShuffleSplit]:
    a permutation of [range(n)] drawn from [RandomState(seed)], whose
    first [n_test] entries index the second array returned and whose
    next [n_train] entries index the first. *)

(** [numpy.random.RandomState(seed).permutation(n)].  The generator is
    not embedded; what is used of it is that it is a function of the seed
    and the length, and returns a permutation of [range(n)]. *)
Class RandomState := {
  permutation : Z → nat → list nat;
  permutation_range :
    ∀ seed n, 0 ≤ seed < 2 ^ 32 → permutation seed n ≡ₚ seq 0 n
}.

(** [_validate_shuffle_split(n_samples, test_size, None)] for a float
    [test_size].  The sizes are computed on rationals: for 0.4 and 0.5
    and any length below 2^50 the floating-point product has the same
    ceiling. *)
Definition validate_shuffle_split (n_samples : nat) (test_size : Q)
  : result (Z * Z) :=
  if Qle_bool test_size 0 || Qle_bool 1 test_size then Raise ValueError
  else
    let n_test := Qceiling (test_size * inject_Z (Z.of_nat n_samples)) in
    let n_train := Z.of_nat n_samples - n_test in
    if Z.of_nat n_samples <? n_train + n_test then Raise ValueError
    else if n_train =? 0 then Raise ValueError
    else Ok (n_train, n_test).

(** [check_random_state(seed)] for an integer seed: [RandomState(seed)]
    accepts seeds from 0 to 2^32 - 1. *)
Definition check_random_state (seed : Z) : result Z :=
  if (0 <=? seed) && (seed <? 2 ^ 32) then Ok seed else Raise ValueError.

(** [array[indices]] *)
Definition safe_indexing {A} (array : list A) (indices : list nat)
  : result (list A) :=
  match mapM (λ i, array !! i) indices with
  | Some xs => Ok xs
  | None => Raise IndexError
  end.

Section sklearn.
Context `{RandomState}.

Definition train_test_split {A} (array : list A) (test_size : Q) (seed : Z)
  : result (list A * list A) :=
  let n_samples := length array in
  '(n_train, n_test) ← validate_shuffle_split n_samples test_size;
  rng ← check_random_state seed;
  let perm := permutation rng n_samples in
  let ind_test := take (Z.to_nat n_test) perm in
  let ind_train := take (Z.to_nat n_train) (drop (Z.to_nat n_test) perm) in
  train ← safe_indexing array ind_train;
  test ← safe_indexing array ind_test;
  mret (train, test).
End sklearn.

(** ** data_fetching.py *)

Definition url : string :=
  "https://files.grouplens.org/datasets/movielens/ml-1m.zip".

Definition download_and_extract_movielens_1m (data_dir : path) : M unit :=
  let zip_filepath := join data_dir "ml-1m.zip" in
  let extraction_path := join data_dir "ml-1m" in
  e ← os_path_exists data_dir;
  (if negb e then makedirs data_dir else mret ());;
  e ← os_path_exists zip_filepath;
  (if negb e then
     print ("Downloading MovieLens 1M dataset to " ++ show zip_filepath
            ++ "...");;
     urlretrieve url zip_filepath;;
     print "Download completed!"
   else
     print ("Dataset already exists at " ++ show zip_filepath ++ "."));;
  e ← os_path_exists extraction_path;
  if negb e then
    print ("Extracting " ++ show zip_filepath ++ " to "
           ++ show extraction_path ++ "...");;
    extractall zip_filepath data_dir;;
    print "Extraction completed!"
  else
    print ("Extracted files already exist in " ++ show extraction_path ++ ".").

Definition ratings_columns : list string :=
  ["user_id"; "movie_id"; "rating"; "timestamp"].
Definition users_columns : list string :=
  ["user_id"; "gender"; "age"; "occupation"; "zip_code"].
Definition movies_columns : list string :=
  ["movie_id"; "title"; "genres"].

Definition load_movielens_ratings (data_dir : path) (w : world)
  : option (result DataFrame) :=
  let csv_filepath := join (join data_dir "ml-1m") "ratings.dat" in
  read_csv csv_filepath ratings_columns w.

Definition load_movielens_users (data_dir : path) (w : world)
  : option (result DataFrame) :=
  let csv_filepath := join (join data_dir "ml-1m") "users.dat" in
  read_csv csv_filepath users_columns w.

Definition load_movielens_movies (data_dir : path) (w : world)
  : option (result DataFrame) :=
  let csv_filepath := join (join data_dir "ml-1m") "movies.dat" in
  read_csv csv_filepath movies_columns w.

Section create_user_splits.
Context `{RandomState}.

(** Lines 126 to 130: the three arrays of identifiers. *)
Definition user_splits (dataframe : DataFrame) (seed : Z)
  : result (list value * list value * list value) :=
  user_ids ← getitem dataframe "user_id" ≫= selection_unique;
  '(train_ids, temp_ids) ← train_test_split user_ids (2 # 5) seed;
  '(val_ids, test_ids) ← train_test_split temp_ids (1 # 2) seed;
  mret (train_ids, val_ids, test_ids).

Definition create_user_splits
  (dataframe : DataFrame) (data_dir : path) (seed : Z) : M unit :=
  e ← os_path_exists data_dir;
  (if negb e then makedirs data_dir else mret ());;
  '(train_ids, val_ids, test_ids) ← lift (user_splits dataframe seed);
  let df_train := frame_of_array train_ids "user_id" in
  let df_val := frame_of_array val_ids "user_id" in
  let df_test := frame_of_array test_ids "user_id" in
  to_csv df_train (join data_dir "train_users.csv");;
  to_csv df_val (join data_dir "val_users.csv");;
  to_csv df_test (join data_dir "test_users.csv").
End create_user_splits.

(** ** Vocabulary of the statements *)

(** The file [to_csv] leaves for a one-column frame of identifiers. *)
Definition user_file (ids : list value) : content :=
  Csv ["user_id"] ((λ v, [v]) <$> ids).

(** The identifiers held by the CSV file at [p], if there is one. *)
Definition file_ids (w : world) (p : path) : option (list value) :=
  match files w !! p with
  | Some (Csv _ recs) => Some (concat recs)
  | _ => None
  end.

(** The three arrays partition the distinct cells of a column: none has
    a repeat, no two share a value, and together they hold exactly the
    values of the column. *)
Definition partitions (train val test cells : list value) : Prop :=
  NoDup train ∧ NoDup val ∧ NoDup test ∧
  (∀ v, v ∈ train → v ∉ val) ∧
  (∀ v, v ∈ train → v ∉ test) ∧
  (∀ v, v ∈ val → v ∉ test) ∧
  (∀ v, v ∈ cells ↔ v ∈ train ∨ v ∈ val ∨ v ∈ test).

(** [ids] lists the distinct values of the column [cells], each once,
    in any order. *)
Definition distinct_ids (cells ids : list value) : bool :=
  bool_decide (NoDup ids)
  && forallb (λ v, bool_decide (v ∈ cells)) ids
  && forallb (λ v, bool_decide (v ∈ ids)) cells.

(** The world after the three writes of [create_user_splits]. *)
Definition with_split_files
  (data_dir : path) (train val test : list value) (w : world) : world :=
  with_files
    (<[join data_dir "test_users.csv" := user_file test]>
       (<[join data_dir "val_users.csv" := user_file val]>
          (<[join data_dir "train_users.csv" := user_file train]>
             (files w)))) w.

Definition split_names : list string :=
  ["train_users.csv"; "val_users.csv"; "test_users.csv"].

(** The path itself and every path above it. *)
Definition prefixes (p : path) : list path :=
  (λ n, take n p) <$> seq 0 (S (length p)).

(** The target directory can be used: no component of its path is a
    regular file (so it is a directory or can be created), and no
    directory sits where a split file goes. *)
Definition writable (w : world) (data_dir : path) : bool :=
  forallb (λ q, negb (isfile w q)) (prefixes data_dir)
  && forallb (λ name, negb (isdir w (join data_dir name))) split_names.

(** Every directory lies in a directory. *)
Definition well_formed (w : world) : bool :=
  forallb (λ q, isdir w (dirname q)) (elements (dirs w)).

Definition is_fetch (e : event) : bool :=
  match e with UrlRetrieve _ _ => true | _ => false end.
Definition is_extraction (e : event) : bool :=
  match e with ExtractAll _ _ => true | _ => false end.

(** How many network fetches and extractions a trace records. *)
Definition fetches (t : list event) : nat := length (filter is_fetch t).
Definition extractions (t : list event) : nat :=
  length (filter is_extraction t).

(** The archive a call extracts when it extracts one: the file at
    [<data_dir>/ml-1m.zip] if there is one, else what the URL serves. *)
Definition archive_in_use (w : world) (data_dir : path) : option content :=
  match files w !! join data_dir "ml-1m.zip" with
  | Some c => Some c
  | None => net w !! url
  end.

(** The member is the entry [ml-1m/] or an entry directly under it, as
    are all the members of the dataset's archive. *)
Definition under_stem (m : member) : bool :=
  bool_decide (take 1 m.1 = ["ml-1m"]) && (length m.1 <=? 2)%nat.

(** The sizes the two cuts give for [n] distinct identifiers. *)
Definition n_temp (n : nat) : nat := ((2 * n + 4) / 5)%nat.
Definition n_test_of (n : nat) : nat := ((n_temp n + 1) / 2)%nat.
Definition n_val_of (n : nat) : nat := (n_temp n - n_test_of n)%nat.
Definition n_train_of (n : nat) : nat := (n - n_temp n)%nat.

(** Each line of the file, once stripped, has exactly [k] fields. *)
Definition well_formed_file (k : nat) (s : string) : bool :=
  forallb (λ line, (length (split_fields (strip line)) =? k)%nat) (readlines s).

(** [preserves R m]: whatever [m] returns, the world it leaves is
    related by [R] to the one it started from. *)
Definition preserves {A} (R : relation world) (m : M A) : Prop :=
  ∀ w, R w (m w).2.

(** The relations used with [preserves]. *)

(** Nothing that exists disappears. *)
Definition grows (w w' : world) : Prop :=
  dirs w ⊆ dirs w' ∧ dom (files w) ⊆ dom (files w').

(** Only the directory set may differ. *)
Definition keeps_files (w w' : world) : Prop :=
  files w' = files w ∧ net w' = net w ∧ trace w' = trace w.

Definition keeps_fetches (w w' : world) : Prop :=
  fetches (trace w') = fetches (trace w).

Definition keeps_extractions (w w' : world) : Prop :=
  extractions (trace w') = extractions (trace w).

(** *** Sample inputs *)

(** A generator for the examples: the seed rotates [range(n)]. *)
Lemma rotate_Permutation {A} (k : nat) (l : list A) : rotate k l ≡ₚ l.
Proof. unfold rotate. rewrite Permutation_app_comm. by rewrite take_drop. Qed.

Definition rotation : RandomState :=
  {| permutation seed n := rotate (Z.to_nat seed) (seq 0 n);
     permutation_range seed n _ := rotate_Permutation _ _ |}.

Definition int_ids (first : Z) (n : nat) : list value :=
  (λ i, VInt (first + Z.of_nat i)) <$> seq 0 n.

(** A frame with a [user_id] column holding [ids] and a second column. *)
Definition users_frame (ids : list value) : DataFrame :=
  {| index := (λ i, [VInt (Z.of_nat i)]) <$> seq 0 (length ids);
     columns := [("user_id", ids); ("gender", (λ _, VStr "F") <$> ids)] |}.

Definition empty_world : world :=
  {| dirs := ∅; files := ∅; net := ∅; trace := [] |}.

(** The dataset's archive in miniature, and a world whose server has it. *)
Definition sample_ratings : string := "1::1193::5::978300760
1::661::3::978302109
".

Definition sample_users : string := "1::F::1::10::48067
2::M::56::16::70072
".

Definition sample_movies : string :=
  "1::Toy Story (1995)::Animation|Children's|Comedy
".

Definition sample_members : list member :=
  [ (["ml-1m"], None);
    (["ml-1m"; "ratings.dat"], Some sample_ratings);
    (["ml-1m"; "users.dat"], Some sample_users);
    (["ml-1m"; "movies.dat"], Some sample_movies) ].

Definition sample_archive : content := ZipArchive sample_members.

Definition online_world : world :=
  {| dirs := ∅; files := ∅; net := {[ url := sample_archive ]}; trace := [] |}.

(** The world a first acquisition into "data" leaves. *)
Definition acquired_world : world :=
  (download_and_extract_movielens_1m ["data"] online_world).2.

(** A zip archive with no entry under [ml-1m], a world whose server has
    it, and the world a first acquisition into "data" leaves there. *)
Definition foreign_members : list member :=
  [ (["README"], Some "not the dataset") ].

Definition foreign_world : world :=
  {| dirs := ∅; files := ∅; net := {[ url := ZipArchive foreign_members ]};
     trace := [] |}.

Definition foreign_acquired_world : world :=
  (download_and_extract_movielens_1m ["data"] foreign_world).2.

(** ** Further vocabulary *)

(** The directory is one or can be created: no component of its path is
    a regular file. *)
Definition creatable (w : world) (data_dir : path) : bool :=
  forallb (λ q, negb (isfile w q)) (prefixes data_dir).

(** Nothing changes but the directory set, which gains only paths on
    the way to [name]. *)
Definition adds_prefixes (name : path) (w w' : world) : Prop :=
  keeps_files w w' ∧ ∀ q, q ∈ dirs w' → q ∈ dirs w ∨ q `prefix_of` name.

(** What the server holds is as it was, every file outside [data_dir] is
    as it was, and every new directory lies on the way to [data_dir] or
    under it. *)
Definition confined (data_dir : path) (w w' : world) : Prop :=
  net w' = net w ∧
  (∀ p, ¬ data_dir `prefix_of` p → files w' !! p = files w !! p) ∧
  (∀ q, q ∈ dirs w' → q ∈ dirs w ∨ q `prefix_of` data_dir
                      ∨ data_dir `prefix_of` q).

(** The file at [p], or its absence, is as it was. *)
Definition keeps_file_at (p : path) (w w' : world) : Prop :=
  files w' !! p = files w !! p.

(** Nothing is added to the trace. *)
Definition keeps_trace (w w' : world) : Prop := trace w' = trace w.

(** The lines of the file that are not blank once stripped. *)
Definition nonblank_lines (s : string) : list string :=
  filter (λ line, strip line ≠ "") (readlines s).

(** Each line of the file is blank or has, once stripped, from 2 to [k]
    fields. *)
Definition tolerable_file (k : nat) (s : string) : bool :=
  forallb (λ line,
             let n := length (split_fields (strip line)) in
             bool_decide (strip line = "") || (2 <=? n)%nat && (n <=? k)%nat)
          (readlines s).

(** The first line of the file has from 2 to [k] fields and a later line
    has more than [k]. *)
Definition overlong_file (k : nat) (s : string) : bool :=
  match readlines s with
  | first :: rest =>
      let n := length (split_fields (strip first)) in
      (2 <=? n)%nat && (n <=? k)%nat
      && existsb (λ line, (k <? length (split_fields (strip line)))%nat) rest
  | [] => false
  end.

(** *** Further sample inputs *)

(** A world where an earlier download was cut short: the archive file
    is there but is not a zip archive. *)
Definition interrupted_world : world :=
  {| dirs := {[ ["data"] ]};
     files := {[ ["data"; "ml-1m.zip"] := Text "PK" ]};
     net := {[ url := sample_archive ]};
     trace := [] |}.

(** A users file with a blank line and a line that lacks its last two
    fields, and one with a line that has a field too many. *)
Definition ragged_users : string := "1::F::1::10::48067

2::M::56
".

Definition overlong_users : string := "1::F::1::10::48067
2::M::56::16::70072::extra
".

Definition world_with_users (s : string) : world :=
  {| dirs := {[ ["data"]; ["data"; "ml-1m"] ]};
     files := {[ ["data"; "ml-1m"; "users.dat"] := Text s ]};
     net := ∅; trace := [] |}.

(** A world with split files from an earlier run and a file of notes
    beside them. *)
Definition world_with_old_splits : world :=
  {| dirs := {[ ["data"]; ["data"; "splits"] ]};
     files := {[ ["data"; "splits"; "train_users.csv"] := user_file [VInt 99];
                 ["data"; "splits"; "notes.txt"] := Text "keep" ]};
     net := ∅; trace := [] |}.

(** A renaming of identifiers: integer identifiers are moved up by 1000. *)
Definition shift_ids (v : value) : value :=
  match v with
  | VInt z => VInt (z + 1000)
  | _ => v
  end.

(** A world where "data/splits" is a regular file. *)
Definition world_with_file_target : world :=
  {| dirs := {[ ["data"] ]};
     files := {[ ["data"; "splits"] := Text "not a directory" ]};
     net := ∅; trace := [] |}.

(** * Properties *)

Local Open Scope list_scope.

(** ** [unique] *)

Lemma elem_of_unique_from seen cells v :
  v ∈ unique_from seen cells ↔ v ∈ cells ∧ v ∉ seen.
Proof.
  revert seen. induction cells as [|x cells IH]; intros seen; simpl.
  - rewrite elem_of_nil. tauto.
  - destruct (decide (x ∈ seen)) as [Hx|Hx].
    + rewrite IH, elem_of_cons. intuition congruence.
    + rewrite !elem_of_cons, IH, elem_of_cons.
      destruct (decide (v = x)); intuition congruence.
Qed.

Lemma NoDup_unique_from seen cells : NoDup (unique_from seen cells).
Proof.
  revert seen. induction cells as [|x cells IH]; intros seen; simpl.
  - constructor.
  - destruct (decide (x ∈ seen)); [apply IH|].
    constructor; [|apply IH].
    rewrite elem_of_unique_from, elem_of_cons. tauto.
Qed.

Lemma elem_of_unique cells v : v ∈ unique cells ↔ v ∈ cells.
Proof.
  unfold unique. rewrite elem_of_unique_from, elem_of_nil. tauto.
Qed.

Lemma NoDup_unique cells : NoDup (unique cells).
Proof. apply NoDup_unique_from. Qed.

(** Any list of the distinct values of a column is [unique] of the
    column up to order. *)
Lemma distinct_ids_unique cells ids :
  distinct_ids cells ids = true → unique cells ≡ₚ ids.
Proof.
  unfold distinct_ids. rewrite !andb_true_iff, bool_decide_eq_true.
  rewrite !forallb_forall. intros [[Hnd Hids] Hcells].
  apply NoDup_Permutation; [apply NoDup_unique|done|].
  intros v. rewrite elem_of_unique. split.
  - intros Hv%list_elem_of_In%Hcells. by apply bool_decide_eq_true in Hv.
  - intros Hv%list_elem_of_In%Hids. by apply bool_decide_eq_true in Hv.
Qed.

Lemma distinct_ids_length cells ids :
  distinct_ids cells ids = true → length (unique cells) = length ids.
Proof. by intros ->%distinct_ids_unique. Qed.

(** ** Indexing an array by a permutation of its positions *)

Lemma mapM_lookup_seq {A} (array : list A) :
  mapM (λ i, array !! i) (seq 0 (length array)) = Some array.
Proof.
  apply mapM_Some, Forall2_same_length_lookup_2.
  - by rewrite length_seq.
  - intros i x y [-> _]%lookup_seq Hy. done.
Qed.

Lemma Forall2_Permutation {A B} (P : A → B → Prop) l l' xs :
  l ≡ₚ l' → Forall2 P l xs → ∃ xs', Forall2 P l' xs' ∧ xs ≡ₚ xs'.
Proof.
  intros Hp. revert xs.
  induction Hp as [|x l l' Hp IH|x y l|l l' l'' _ IH1 _ IH2]; intros xs Hxs.
  - exists xs. done.
  - inversion Hxs as [|? b ? k Hb Hk]; subst.
    destruct (IH k Hk) as (k' & Hk' & Hkk'). exists (b :: k').
    split; by constructor.
  - inversion Hxs as [|? b ? k0 Hb Hk0]; subst.
    inversion Hk0 as [|? c ? k Hc Hk]; subst.
    exists (c :: b :: k). split; [by repeat constructor|apply perm_swap].
  - destruct (IH1 xs Hxs) as (xs1 & H1 & Hp1).
    destruct (IH2 xs1 H1) as (xs2 & H2 & Hp2).
    exists xs2. split; [done|]. by etrans.
Qed.

Lemma mapM_Permutation {A B} (f : A → option B) l l' xs :
  l ≡ₚ l' → mapM f l = Some xs → ∃ xs', mapM f l' = Some xs' ∧ xs ≡ₚ xs'.
Proof.
  intros Hp Hxs. apply mapM_Some in Hxs.
  destruct (Forall2_Permutation _ _ _ _ Hp Hxs) as (xs' & H' & Hperm).
  exists xs'. by rewrite mapM_Some.
Qed.

Lemma mapM_app_Some {A B} (f : A → option B) l1 l2 xs :
  mapM f (l1 ++ l2) = Some xs →
  ∃ xs1 xs2, mapM f l1 = Some xs1 ∧ mapM f l2 = Some xs2 ∧ xs = xs1 ++ xs2.
Proof.
  rewrite mapM_Some, Forall2_app_inv_l.
  intros (xs1 & xs2 & H1 & H2 & ->). exists xs1, xs2.
  by rewrite !mapM_Some.
Qed.

(** Cutting a permutation of the positions in two cuts the array in two. *)
Lemma indexing_cut {A} (array : list A) (perm : list nat) (k : nat) :
  perm ≡ₚ seq 0 (length array) →
  ∃ test train,
    mapM (λ i, array !! i) (take k perm) = Some test ∧
    mapM (λ i, array !! i) (drop k perm) = Some train ∧
    test ++ train ≡ₚ array ∧
    length test = (k `min` length array)%nat.
Proof.
  intros Hp. symmetry in Hp.
  destruct (mapM_Permutation _ _ _ _ Hp (mapM_lookup_seq array))
    as (xs & Hxs & Hperm).
  rewrite <- (take_drop k perm) in Hxs.
  apply mapM_app_Some in Hxs as (test & train & Ht & Hd & ->).
  exists test, train. repeat split; [done..| |].
  - by symmetry.
  - apply length_mapM in Ht. rewrite <- Ht, length_take.
    apply Permutation_length in Hp. rewrite length_seq in Hp. lia.
Qed.

(** ** The sizes [_validate_shuffle_split] computes *)

Lemma Qceiling_two_fifths (n : nat) :
  Qceiling ((2 # 5) * inject_Z (Z.of_nat n)) = Z.of_nat (n_temp n).
Proof.
  unfold Qceiling, Qfloor, n_temp. cbn [Qopp Qmult Qnum Qden inject_Z].
  change (Z.pos (5 * 1)) with 5.
  rewrite Nat2Z.inj_div, Nat2Z.inj_add, Nat2Z.inj_mul.
  change (Z.of_nat 2) with 2. change (Z.of_nat 4) with 4.
  change (Z.of_nat 5) with 5.
  generalize (Z.of_nat n). intros z. Z.div_mod_to_equations. lia.
Qed.

Lemma Qceiling_half (n : nat) :
  Qceiling ((1 # 2) * inject_Z (Z.of_nat n)) = Z.of_nat ((n + 1) / 2).
Proof.
  unfold Qceiling, Qfloor. cbn [Qopp Qmult Qnum Qden inject_Z].
  change (Z.pos (2 * 1)) with 2.
  rewrite Nat2Z.inj_div, Nat2Z.inj_add.
  change (Z.of_nat 2) with 2. change (Z.of_nat 1) with 1.
  generalize (Z.of_nat n). intros z. Z.div_mod_to_equations. lia.
Qed.

Lemma n_temp_le (n : nat) : (n_temp n ≤ n)%nat.
Proof.
  unfold n_temp. destruct n as [|[|n]]; [done|done|].
  apply Nat.Div0.div_le_upper_bound. lia.
Qed.

Lemma validate_two_fifths (n : nat) :
  validate_shuffle_split n (2 # 5) =
  if (n <=? 1)%nat then Raise ValueError
  else Ok (Z.of_nat (n_train_of n), Z.of_nat (n_temp n)).
Proof.
  unfold validate_shuffle_split. cbn [Qle_bool orb Qnum Qden Z.leb Z.mul].
  change (Qle_bool (2 # 5) 0 || Qle_bool 1 (2 # 5)) with false.
  cbv iota zeta. rewrite Qceiling_two_fifths.
  pose proof (n_temp_le n) as Hle.
  replace (Z.of_nat n - Z.of_nat (n_temp n)) with (Z.of_nat (n_train_of n))
    by (unfold n_train_of; lia).
  destruct (Z.ltb_spec (Z.of_nat n)
              (Z.of_nat (n_train_of n) + Z.of_nat (n_temp n)))
    as [Hlt|_]; [unfold n_train_of in Hlt; lia|].
  destruct (Nat.leb_spec n 1) as [Hn|Hn].
  - assert (n_train_of n = 0%nat) as ->; [|done].
    unfold n_train_of, n_temp.
    destruct n as [|[|n]]; [done|done|lia].
  - assert (n_train_of n ≠ 0%nat) as Hne.
    { unfold n_train_of, n_temp.
      pose proof (Nat.Div0.mul_div_le (2 * n + 4) 5). lia. }
    destruct (Z.eqb_spec (Z.of_nat (n_train_of n)) 0); [lia|done].
Qed.

Lemma validate_half (n : nat) :
  validate_shuffle_split n (1 # 2) =
  if (n <=? 1)%nat then Raise ValueError
  else Ok (Z.of_nat (n - (n + 1) / 2), Z.of_nat ((n + 1) / 2)).
Proof.
  unfold validate_shuffle_split.
  change (Qle_bool (1 # 2) 0 || Qle_bool 1 (1 # 2)) with false.
  cbv iota zeta. rewrite Qceiling_half.
  assert ((n + 1) / 2 ≤ n)%nat as Hle.
  { destruct n as [|n]; [done|]. apply Nat.Div0.div_le_upper_bound. lia. }
  replace (Z.of_nat n - Z.of_nat ((n + 1) / 2))
    with (Z.of_nat (n - (n + 1) / 2)) by lia.
  destruct (Z.ltb_spec (Z.of_nat n)
              (Z.of_nat (n - (n + 1) / 2) + Z.of_nat ((n + 1) / 2)))
    as [Hlt|_]; [lia|].
  destruct (Nat.leb_spec n 1) as [Hn|Hn].
  - assert ((n - (n + 1) / 2) = 0)%nat as ->; [|done].
    destruct n as [|[|n]]; [done|done|lia].
  - assert ((n - (n + 1) / 2) ≠ 0)%nat as Hne.
    { pose proof (Nat.Div0.mul_div_le (n + 1) 2).
      pose proof (Nat.Div0.div_le_upper_bound (n + 1) 2 (n - 1)). lia. }
    destruct (Z.eqb_spec (Z.of_nat (n - (n + 1) / 2)) 0); [lia|done].
Qed.

(** ** [train_test_split] *)

Section split_properties.
Context `{RandomState}.

Lemma train_test_split_Ok {A} (array : list A) test_size seed n_train n_test :
  validate_shuffle_split (length array) test_size
    = Ok (Z.of_nat n_train, Z.of_nat n_test) →
  (n_train + n_test = length array)%nat →
  0 ≤ seed < 2 ^ 32 →
  ∃ train test,
    train_test_split array test_size seed = Ok (train, test) ∧
    train ++ test ≡ₚ array ∧
    length train = n_train ∧ length test = n_test.
Proof.
  intros Hv Hsum Hseed. unfold train_test_split. rewrite Hv. simpl.
  unfold check_random_state.
  destruct (Z.leb_spec 0 seed); [|lia].
  destruct (Z.ltb_spec seed (2 ^ 32)); [|lia]. simpl.
  rewrite !Nat2Z.id.
  pose proof (permutation_range seed (length array) Hseed) as Hp.
  destruct (indexing_cut array _ n_test Hp)
    as (test & train & Htest & Htrain & Hperm & Hlen).
  rewrite (take_ge (drop n_test _) n_train)
    by (rewrite length_drop, (Permutation_length Hp), length_seq; lia).
  unfold safe_indexing. rewrite Htrain, Htest. simpl.
  exists train, test. split; [done|].
  assert (length test = n_test) as Hlt by lia.
  split; [by rewrite Permutation_app_comm|].
  split; [|done].
  apply Permutation_length in Hperm. rewrite length_app in Hperm. lia.
Qed.

Lemma train_test_split_Raise {A} (array : list A) test_size seed e :
  validate_shuffle_split (length array) test_size = Raise e →
  train_test_split array test_size seed = Raise e.
Proof. intros Hv. unfold train_test_split. by rewrite Hv. Qed.

Lemma train_test_split_seed {A} (array : list A) test_size seed :
  ¬ (0 ≤ seed < 2 ^ 32) →
  train_test_split array test_size seed = Raise ValueError.
Proof.
  intros Hseed. unfold train_test_split.
  destruct (validate_shuffle_split _ _) as [[n_train n_test]|e] eqn:Hv.
  - simpl. unfold check_random_state.
    destruct (Z.leb_spec 0 seed); [|done].
    destruct (Z.ltb_spec seed (2 ^ 32)); [lia|done].
  - unfold validate_shuffle_split in Hv.
    repeat match type of Hv with
           | (if ?b then _ else _) = _ => destruct b
           end; by simplify_eq.
Qed.

(** ** Lines 126 to 130 *)

Lemma user_splits_Ok dataframe cells seed :
  getitem dataframe "user_id" = Ok (Series cells) →
  (3 ≤ length (unique cells))%nat →
  0 ≤ seed < 2 ^ 32 →
  ∃ train val test,
    user_splits dataframe seed = Ok (train, val, test) ∧
    train ++ val ++ test ≡ₚ unique cells ∧
    length train = n_train_of (length (unique cells)) ∧
    length val = n_val_of (length (unique cells)) ∧
    length test = n_test_of (length (unique cells)).
Proof.
  intros Hget Hn Hseed. unfold user_splits. rewrite Hget. simpl.
  set (ids := unique cells) in *. set (n := length ids) in *.
  assert (2 ≤ n_temp n ≤ n)%nat as Htemp.
  { unfold n_temp. split.
    - apply Nat.div_le_lower_bound; lia.
    - apply Nat.Div0.div_le_upper_bound; lia. }
  destruct (train_test_split_Ok ids (2 # 5) seed (n_train_of n) (n_temp n))
    as (train & temp & -> & Hperm1 & Hltrain & Hltemp); [| |done|].
  { rewrite validate_two_fifths. fold n.
    destruct (Nat.leb_spec n 1); [lia|done]. }
  { unfold n_train_of. fold n. lia. }
  simpl.
  destruct (train_test_split_Ok temp (1 # 2) seed (n_val_of n) (n_test_of n))
    as (val & test & -> & Hperm2 & Hlval & Hltest); [| |done|].
  { rewrite validate_half, Hltemp.
    destruct (Nat.leb_spec (n_temp n) 1); [lia|done]. }
  { unfold n_val_of, n_test_of. rewrite Hltemp.
    pose proof (Nat.Div0.div_le_upper_bound (n_temp n + 1) 2 (n_temp n)).
    lia. }
  simpl. exists train, val, test. split; [done|].
  split; [|done]. by rewrite Hperm2.
Qed.

Lemma user_splits_small dataframe cells seed :
  getitem dataframe "user_id" = Ok (Series cells) →
  (length (unique cells) < 3)%nat →
  user_splits dataframe seed = Raise ValueError.
Proof.
  intros Hget Hn. unfold user_splits. rewrite Hget. simpl.
  set (ids := unique cells) in *.
  destruct (decide (length ids ≤ 1)%nat) as [Hle|Hgt].
  - rewrite (train_test_split_Raise _ _ _ ValueError); [done|].
    rewrite validate_two_fifths.
    destruct (Nat.leb_spec (length ids) 1); [done|lia].
  - assert (length ids = 2%nat) as Hlen by lia.
    destruct (decide (0 ≤ seed < 2 ^ 32)) as [Hseed|Hseed].
    + destruct (train_test_split_Ok ids (2 # 5) seed 1 1)
        as (train & temp & -> & _ & _ & Hltemp); [| |done|].
      { by rewrite validate_two_fifths, Hlen. }
      { by rewrite Hlen. }
      simpl. rewrite (train_test_split_Raise _ _ _ ValueError); [done|].
      by rewrite validate_half, Hltemp.
    + by rewrite train_test_split_seed.
Qed.

Lemma user_splits_seed dataframe cells seed :
  getitem dataframe "user_id" = Ok (Series cells) →
  ¬ (0 ≤ seed < 2 ^ 32) →
  user_splits dataframe seed = Raise ValueError.
Proof.
  intros Hget Hseed. unfold user_splits. rewrite Hget. simpl.
  by rewrite train_test_split_seed.
Qed.
End split_properties.

#[local] Set Warnings "-clear-no-such-hyp".

(** ** Running statements *)

Lemma run_bind {A B} (m : M A) (f : A → M B) (w : world) :
  (m ≫= f) w =
  match m w with
  | (Ok a, w') => f a w'
  | (Raise e, w') => (Raise e, w')
  end.
Proof. reflexivity. Qed.

Section preserves.
Context (R : relation world) `{!PreOrder R}.

Lemma preserves_ret {A} (a : A) : preserves R (mret a).
Proof. intros w. simpl. reflexivity. Qed.

Lemma preserves_lift {A} (r : result A) : preserves R (lift r).
Proof. intros w. simpl. reflexivity. Qed.

Lemma preserves_bind {A B} (m : M A) (f : A → M B) :
  preserves R m → (∀ a, preserves R (f a)) → preserves R (m ≫= f).
Proof.
  intros Hm Hf w. rewrite run_bind. specialize (Hm w).
  destruct (m w) as [[a|e] w']; simpl in *; [|done].
  etrans; [exact Hm|apply Hf].
Qed.

Lemma preserves_except_pass e (m : M unit) :
  preserves R m → preserves R (except_pass e m).
Proof.
  intros Hm w. unfold except_pass. specialize (Hm w).
  destruct (m w) as [[a|e'] w']; simpl in *; [done|].
  by destruct (decide (e' = e)).
Qed.

Lemma preserves_os_path_exists p : preserves R (os_path_exists p).
Proof. intros w. simpl. reflexivity. Qed.

Lemma preserves_os_path_isdir p : preserves R (os_path_isdir p).
Proof. intros w. simpl. reflexivity. Qed.

Lemma preserves_read_file p : preserves R (read_file p).
Proof.
  intros w. unfold read_file.
  destruct (files w !! p); [|destruct (isdir w p)]; simpl; reflexivity.
Qed.

Lemma preserves_if {A} (b : bool) (m1 m2 : M A) :
  preserves R m1 → preserves R m2 → preserves R (if b then m1 else m2).
Proof. by destruct b. Qed.
End preserves.

(** Breaks a statement into its primitive calls. *)
Ltac preserves_steps :=
  repeat first
    [ assumption
    | lazymatch goal with
      | |- PreOrder _ => apply _
      | |- preserves _ (mret _) => apply preserves_ret
      | |- preserves _ (lift _) => apply preserves_lift
      | |- preserves _ (os_path_exists _) => apply preserves_os_path_exists
      | |- preserves _ (os_path_isdir _) => apply preserves_os_path_isdir
      | |- preserves _ (read_file _) => apply preserves_read_file
      | |- preserves _ (except_pass _ _) => apply preserves_except_pass
      | |- preserves _ (if _ then _ else _) => apply preserves_if
      | |- preserves _ (_ ≫= _) => apply preserves_bind; [apply _| |intros ?]
      end ].

#[local] Instance grows_preorder : PreOrder grows.
Proof.
  split; [by intros w|].
  intros w1 w2 w3 [H1 H2] [H3 H4]. split; by etrans.
Qed.

#[local] Instance keeps_files_preorder : PreOrder keeps_files.
Proof.
  split; [by intros w|].
  intros w1 w2 w3 (H1 & H2 & H3) (H4 & H5 & H6). unfold keeps_files.
  by rewrite H4, H5, H6.
Qed.

#[local] Instance keeps_fetches_preorder : PreOrder keeps_fetches.
Proof.
  split; [by intros w|].
  intros w1 w2 w3 H1 H2. unfold keeps_fetches in *. congruence.
Qed.

#[local] Instance keeps_extractions_preorder : PreOrder keeps_extractions.
Proof.
  split; [by intros w|].
  intros w1 w2 w3 H1 H2. unfold keeps_extractions in *. congruence.
Qed.

Lemma grows_path_exists w w' p :
  grows w w' → path_exists w p = true → path_exists w' p = true.
Proof.
  intros [Hd Hf]. unfold path_exists, isdir, isfile.
  rewrite !orb_true_iff, !bool_decide_eq_true, <- !elem_of_dom. set_solver.
Qed.


Lemma keeps_files_fetches w w' : keeps_files w w' → keeps_fetches w w'.
Proof. intros (_ & _ & Ht). unfold keeps_fetches. by rewrite Ht. Qed.

Lemma keeps_files_extractions w w' :
  keeps_files w w' → keeps_extractions w w'.
Proof. intros (_ & _ & Ht). unfold keeps_extractions. by rewrite Ht. Qed.

(** ** Paths *)

Lemma dirname_join p name : dirname (join p name) = p.
Proof. apply removelast_last. Qed.

Lemma dirname_snoc (p : path) name : dirname (p ++ [name]) = p.
Proof. apply removelast_last. Qed.

Lemma isdir_nil w : isdir w [] = true.
Proof. unfold isdir. apply bool_decide_eq_true. by left. Qed.

Lemma isdir_true w p : isdir w p = true ↔ p = [] ∨ p ∈ dirs w.
Proof. unfold isdir. by rewrite bool_decide_eq_true. Qed.

Lemma elem_of_prefixes (p q : path) : q ∈ prefixes p ↔ q `prefix_of` p.
Proof.
  unfold prefixes. rewrite list_elem_of_fmap. split.
  - intros (n & -> & _). apply prefix_take.
  - intros [k ->]. exists (length q). split.
    + by rewrite take_app_length.
    + apply elem_of_seq. rewrite length_app. lia.
Qed.

Lemma prefix_snoc_inv (q p : path) name :
  q `prefix_of` p ++ [name] → q = p ++ [name] ∨ q `prefix_of` p.
Proof.
  intros [k Hk]. destruct (decide (k = [])) as [->|Hne].
  - left. by rewrite app_nil_r in Hk.
  - right. destruct (exists_last Hne) as (k' & x & ->).
    rewrite app_assoc in Hk. apply app_inj_tail in Hk as [-> _].
    by exists k'.
Qed.

(** ** [os.mkdir], [os.makedirs], [open] *)

Lemma mkdir_keeps_files p : preserves keeps_files (mkdir p).
Proof.
  intros w. unfold mkdir.
  repeat match goal with |- context [if ?b then _ else _] => destruct b end;
    done.
Qed.

Lemma mkdir_grows p : preserves grows (mkdir p).
Proof.
  intros w. unfold mkdir.
  repeat match goal with |- context [if ?b then _ else _] => destruct b end;
    split; simpl; set_solver.
Qed.

Lemma mkdir_Ok p w w' :
  mkdir p w = (Ok (), w') → w' = with_dirs ({[p]} ∪ dirs w) w.
Proof.
  unfold mkdir.
  repeat match goal with |- context [if ?b then _ else _] => destruct b end;
    intros; by simplify_eq.
Qed.

Lemma makedirs_rev_keeps_files rname : preserves keeps_files (makedirs_rev rname).
Proof.
  induction rname as [|tail rhead IH]; simpl;
    preserves_steps; apply mkdir_keeps_files.
Qed.

Lemma makedirs_rev_grows rname : preserves grows (makedirs_rev rname).
Proof.
  induction rname as [|tail rhead IH]; simpl;
    preserves_steps; apply mkdir_grows.
Qed.

Lemma makedirs_keeps_files p : preserves keeps_files (makedirs p).
Proof. apply makedirs_rev_keeps_files. Qed.

Lemma makedirs_grows p : preserves grows (makedirs p).
Proof. apply makedirs_rev_grows. Qed.

(** A successful [makedirs] leaves its argument a directory. *)
Lemma makedirs_Ok_isdir p w w' :
  makedirs p w = (Ok (), w') → isdir w' p = true.
Proof.
  unfold makedirs. rewrite <- (rev_involutive p) at 2.
  destruct (rev p) as [|tail rhead]; simpl; [intros; apply isdir_nil|].
  rewrite run_bind. simpl. rewrite run_bind.
  match goal with
  | |- (match ?x with _ => _ end) = _ → _ => destruct x as [[[]|e] w1]
  end; [|done].
  intros ->%mkdir_Ok. apply isdir_true. right. simpl. set_solver.
Qed.

(** Every directory above a directory of a well-formed world is one. *)
Lemma well_formed_prefix w p q :
  well_formed w = true → isdir w p = true → q `prefix_of` p →
  isdir w q = true.
Proof.
  intros Hwf. revert q. induction p as [|name p IH] using rev_ind; intros q Hp Hq.
  - apply prefix_nil_inv in Hq as ->. apply isdir_nil.
  - apply prefix_snoc_inv in Hq as [->|Hq]; [done|].
    apply IH; [|done].
    apply isdir_true in Hp as [Hp|Hp]; [by destruct p|].
    unfold well_formed in Hwf. rewrite forallb_forall in Hwf.
    specialize (Hwf (p ++ [name])). rewrite dirname_snoc in Hwf.
    apply Hwf, list_elem_of_In, elem_of_elements, Hp.
Qed.

(** [makedirs] succeeds on a path that does not exist and has no regular
    file above it; it changes nothing but the directory set, to which it
    adds the path and (some of) the paths above it. *)
Lemma makedirs_rev_Ok rname w :
  (∀ q, q `prefix_of` rev rname → isfile w q = false) →
  path_exists w (rev rname) = false →
  ∃ w', makedirs_rev rname w = (Ok (), w') ∧
        keeps_files w w' ∧
        isdir w' (rev rname) = true ∧
        (∀ q, q ∈ dirs w' → q ∈ dirs w ∨ q `prefix_of` rev rname) ∧
        (well_formed w = true →
         ∀ q, q `prefix_of` rev rname → isdir w' q = true).
Proof.
  revert w. induction rname as [|tail rhead IH]; intros w Hfiles Hnew.
  { cbn [rev] in Hnew. unfold path_exists in Hnew.
    by rewrite isdir_nil in Hnew. }
  cbn [rev makedirs_rev] in *. rewrite run_bind.
  cbn [os_path_exists]. rewrite run_bind.
  set (head := rev rhead) in *.
  assert (∃ w1, (if bool_decide (rhead ≠ []) && negb (path_exists w head)
                 then except_pass FileExistsError (makedirs_rev rhead)
                 else mret ()) w = (Ok (), w1) ∧
                keeps_files w w1 ∧ isdir w1 head = true ∧
                (∀ q, q ∈ dirs w1 → q ∈ dirs w ∨ q `prefix_of` head) ∧
                (well_formed w = true →
                 ∀ q, q `prefix_of` head → isdir w1 q = true))
    as (w1 & -> & Hkeep & Hhead & Hdirs & Hwf).
  { destruct (bool_decide (rhead ≠ [])) eqn:Hne; simpl.
    - destruct (path_exists w head) eqn:Hex; simpl.
      + exists w. split; [done|]. split; [done|].
        assert (isdir w head = true) as Hd.
        { unfold path_exists in Hex. rewrite Hfiles in Hex.
          - by rewrite orb_false_r in Hex.
          - by apply prefix_app_r. }
        split; [done|]. split; [by left|].
        intros Hw q Hq. by apply (well_formed_prefix w head).
      + destruct (IH w) as (w1 & Hrun & ?); [|done|].
        { intros q Hq. apply Hfiles. by apply prefix_app_r. }
        exists w1. unfold except_pass. by rewrite Hrun.
    - apply bool_decide_eq_false in Hne.
      assert (rhead = []) as -> by (by destruct (decide (rhead = []))).
      exists w. split; [done|]. split; [done|].
      split; [apply isdir_nil|]. split; [by left|].
      intros _ q ->%prefix_nil_inv. apply isdir_nil. }
  assert (path_exists w1 (head ++ [tail]) = false) as Hnew1.
  { destruct Hkeep as (Hf & _ & _). unfold path_exists, isdir, isfile in *.
    rewrite Hf. apply orb_false_iff in Hnew as [Hnd Hnf]. rewrite Hnf.
    rewrite orb_false_r. apply bool_decide_eq_false.
    apply bool_decide_eq_false in Hnd.
    intros [Hnil|Hin]; [by destruct head|].
    destruct (Hdirs _ Hin) as [?|Hpre]; [tauto|].
    apply prefix_length in Hpre. rewrite length_app in Hpre. simpl in Hpre. lia. }
  unfold mkdir. rewrite Hnew1, dirname_snoc, Hhead.
  eexists. split; [done|]. split; [by destruct Hkeep as (? & ? & ?)|].
  split; [apply isdir_true; right; simpl; set_solver|].
  split.
  - simpl. intros q [->%elem_of_singleton|Hq]%elem_of_union; [by right|].
    destruct (Hdirs _ Hq) as [?|?]; [by left|right]. by apply prefix_app_r.
  - intros Hw q [->|Hq]%prefix_snoc_inv.
    + apply isdir_true. right. simpl. set_solver.
    + specialize (Hwf Hw q Hq). apply isdir_true in Hwf as [?|?];
        apply isdir_true; [by left|right; simpl; set_solver].
Qed.

Lemma write_file_Ok p c w :
  isdir w p = false → isdir w (dirname p) = true →
  write_file p c w = (Ok (), with_files (<[p := c]> (files w)) w).
Proof. intros Hp Hd. unfold write_file. by rewrite Hp, Hd. Qed.


(** ** [to_csv] on the frames [create_user_splits] builds *)

Lemma records_frame_of_array ids name :
  records (frame_of_array ids name) = (λ v, [v]) <$> ids.
Proof.
  unfold records, nrows, frame_of_array. simpl.
  rewrite length_fmap, length_seq. apply list_eq. intros i.
  rewrite !list_lookup_fmap.
  destruct (decide (i < length ids)%nat) as [Hi|Hi].
  - rewrite lookup_seq_lt by done. simpl.
    destruct (lookup_lt_is_Some_2 ids i Hi) as [v Hv]. by rewrite Hv.
  - rewrite lookup_seq_ge by lia. by rewrite lookup_ge_None_2 by lia.
Qed.

Lemma to_csv_frame_of_array ids p :
  to_csv (frame_of_array ids "user_id") p = write_file p (user_file ids).
Proof. unfold to_csv, user_file. by rewrite records_frame_of_array. Qed.

(** ** The directory step shared by both entry points

    [if not os.path.exists(data_dir): os.makedirs(data_dir)] *)

Lemma writable_prefix w data_dir q :
  writable w data_dir = true → q `prefix_of` data_dir → isfile w q = false.
Proof.
  unfold writable. rewrite andb_true_iff, forallb_forall.
  intros [Hp _] Hq. apply negb_true_iff, Hp, list_elem_of_In.
  by apply elem_of_prefixes.
Qed.

Lemma writable_name w data_dir name :
  writable w data_dir = true → name ∈ split_names →
  isdir w (join data_dir name) = false.
Proof.
  unfold writable. rewrite andb_true_iff, !forallb_forall.
  intros [_ Hn] Hin. by apply negb_true_iff, Hn, list_elem_of_In.
Qed.

Lemma ensure_dir_keeps_files data_dir (e : bool) :
  preserves keeps_files (if negb e then makedirs data_dir else mret ()).
Proof. preserves_steps. apply makedirs_keeps_files. Qed.

Lemma ensure_dir_grows data_dir (e : bool) :
  preserves grows (if negb e then makedirs data_dir else mret ()).
Proof. preserves_steps. apply makedirs_grows. Qed.

Lemma ensure_dir_Ok data_dir w :
  writable w data_dir = true →
  ∃ w1, (if negb (path_exists w data_dir) then makedirs data_dir
         else mret ()) w = (Ok (), w1) ∧
        keeps_files w w1 ∧
        isdir w1 data_dir = true ∧
        (∀ name, name ∈ split_names → isdir w1 (join data_dir name) = false) ∧
        (well_formed w = true →
         ∀ q, q `prefix_of` data_dir → isdir w1 q = true).
Proof.
  intros Hw. destruct (path_exists w data_dir) eqn:Hex; simpl.
  - assert (isdir w data_dir = true) as Hd.
    { unfold path_exists in Hex.
      rewrite (writable_prefix w data_dir data_dir) in Hex by done.
      by rewrite orb_false_r in Hex. }
    exists w. split; [done|]. split; [done|]. split; [done|].
    split; [intros; by apply writable_name|].
    intros Hwf q Hq. by apply (well_formed_prefix w data_dir).
  - destruct (makedirs_rev_Ok (rev data_dir) w)
      as (w1 & Hrun & Hkeep & Hd & Hdirs & Hwf);
      rewrite ?rev_involutive;
      [intros q Hq; by apply (writable_prefix w data_dir)|done|].
    rewrite rev_involutive in *.
    exists w1. split; [done|]. split; [done|]. split; [done|].
    split; [|done].
    intros name Hname. pose proof (writable_name _ _ _ Hw Hname) as Hn.
    apply bool_decide_eq_false. apply bool_decide_eq_false in Hn.
    intros [Hnil|Hin]; [by destruct data_dir|].
    destruct (Hdirs _ Hin) as [?|Hpre]; [tauto|].
    apply prefix_length in Hpre. unfold join in Hpre.
    rewrite length_app in Hpre. simpl in Hpre. lia.
Qed.

(** ** [create_user_splits], statement by statement *)

Section create_user_splits_run.
Context `{RandomState}.

(** On a usable target the call does the directory step, which only
    adds directories, and then either raises what lines 126 to 130 raise
    or writes the three files. *)
Lemma create_user_splits_run dataframe data_dir seed w :
  writable w data_dir = true →
  ∃ w1,
    keeps_files w w1 ∧ isdir w1 data_dir = true ∧
    (well_formed w = true →
     ∀ q, q `prefix_of` data_dir → isdir w1 q = true) ∧
    create_user_splits dataframe data_dir seed w =
    match user_splits dataframe seed with
    | Ok (train, val, test) =>
        (Ok (), with_split_files data_dir train val test w1)
    | Raise e => (Raise e, w1)
    end.
Proof.
  intros Hw.
  destruct (ensure_dir_Ok data_dir w Hw) as (w1 & Hrun & Hkeep & Hd & Hn & Hwf).
  exists w1. split; [done|]. split; [done|]. split; [done|].
  unfold create_user_splits. rewrite run_bind. cbn [os_path_exists].
  rewrite run_bind, Hrun, run_bind. unfold lift at 1.
  destruct (user_splits dataframe seed) as [[[train val] test]|e]; [|done].
  rewrite !to_csv_frame_of_array, run_bind.
  rewrite write_file_Ok;
    [|apply Hn; set_solver|by rewrite dirname_join].
  rewrite run_bind, write_file_Ok;
    [|apply Hn; set_solver|by rewrite dirname_join].
  rewrite write_file_Ok;
    [|apply Hn; set_solver|by rewrite dirname_join].
  done.
Qed.

(** Whatever the target, when lines 126 to 130 raise the call raises
    and no file is written. *)
Lemma create_user_splits_Raise dataframe data_dir seed w e :
  user_splits dataframe seed = Raise e →
  ∃ e' w', create_user_splits dataframe data_dir seed w = (Raise e', w') ∧
           keeps_files w w'.
Proof.
  intros He. unfold create_user_splits. rewrite run_bind.
  cbn [os_path_exists]. rewrite run_bind.
  pose proof (ensure_dir_keeps_files data_dir (path_exists w data_dir) w)
    as Hkeep.
  destruct ((if negb (path_exists w data_dir) then makedirs data_dir
             else mret ()) w) as [[[]|e0] w1]; simpl in Hkeep.
  - rewrite run_bind, He. simpl. by exists e, w1.
  - by exists e0, w1.
Qed.
End create_user_splits_run.

(** ** What the split files hold *)

Lemma concat_singletons (ids : list value) : concat ((λ v, [v]) <$> ids) = ids.
Proof. induction ids as [|v ids IH]; simpl; by f_equal. Qed.

Lemma join_inj p name1 name2 : join p name1 = join p name2 → name1 = name2.
Proof. unfold join. intros Heq. apply app_inv_head in Heq. by simplify_eq. Qed.

Lemma file_ids_with_split_files data_dir train val test w :
  let w' := with_split_files data_dir train val test w in
  file_ids w' (join data_dir "train_users.csv") = Some train ∧
  file_ids w' (join data_dir "val_users.csv") = Some val ∧
  file_ids w' (join data_dir "test_users.csv") = Some test.
Proof.
  unfold file_ids, with_split_files, user_file. simpl. repeat split.
  - rewrite lookup_insert_ne by (intros ?%join_inj; done).
    rewrite lookup_insert_ne by (intros ?%join_inj; done).
    by rewrite lookup_insert_eq, concat_singletons.
  - rewrite lookup_insert_ne by (intros ?%join_inj; done).
    by rewrite lookup_insert_eq, concat_singletons.
  - by rewrite lookup_insert_eq, concat_singletons.
Qed.

Lemma partitions_unique train val test cells :
  train ++ val ++ test ≡ₚ unique cells → partitions train val test cells.
Proof.
  intros Hperm.
  assert (NoDup (train ++ val ++ test)) as Hnd
    by (rewrite Hperm; apply NoDup_unique).
  apply NoDup_app in Hnd as (Htrain & Hdisj & Hnd).
  apply NoDup_app in Hnd as (Hval & Hdisj' & Htest).
  unfold partitions. split_and!; try done.
  - intros v Hv Hv'. apply (Hdisj v Hv). apply elem_of_app. by left.
  - intros v Hv Hv'. apply (Hdisj v Hv). apply elem_of_app. by right.
  - intros v. rewrite <- elem_of_unique, <- Hperm, !elem_of_app. tauto.
Qed.

Lemma getitem_KeyError dataframe name :
  name ∉ column_names dataframe → getitem dataframe name = Raise KeyError.
Proof.
  intros Hname. unfold getitem.
  destruct (filter _ (columns dataframe)) as [|c cs] eqn:Hf; [done|].
  exfalso. apply Hname.
  assert (c ∈ filter (λ c, c.1 = name) (columns dataframe)) as Hc
    by (rewrite Hf; left).
  apply list_elem_of_filter in Hc as [<- Hc].
  unfold column_names. apply list_elem_of_fmap. by exists c.
Qed.

(** ** The claims about [create_user_splits] *)

Section create_user_splits_claims.
Context `{RandomState}.

(** C1 (amended).  For every frame with exactly one [user_id] column that
    holds at least three distinct identifiers, every seed from 0 to
    2^32 - 1 and every usable target directory, [create_user_splits]
    returns normally and leaves three files whose identifier lists
    partition the distinct values of the column: no repeats, pairwise
    disjoint, and their union is exactly the set of values of the column. *)
Theorem create_user_splits_partition dataframe cells data_dir seed w :
  getitem dataframe "user_id" = Ok (Series cells) →
  (3 ≤ length (unique cells))%nat →
  0 ≤ seed < 2 ^ 32 →
  writable w data_dir = true →
  ∃ w' train val test,
    create_user_splits dataframe data_dir seed w = (Ok (), w') ∧
    file_ids w' (join data_dir "train_users.csv") = Some train ∧
    file_ids w' (join data_dir "val_users.csv") = Some val ∧
    file_ids w' (join data_dir "test_users.csv") = Some test ∧
    partitions train val test cells.
Proof.
  intros Hget Hn Hseed Hw.
  destruct (user_splits_Ok dataframe cells seed Hget Hn Hseed)
    as (train & val & test & Hsplit & Hperm & _).
  destruct (create_user_splits_run dataframe data_dir seed w Hw)
    as (w1 & _ & _ & _ & Hrun).
  rewrite Hsplit in Hrun.
  destruct (file_ids_with_split_files data_dir train val test w1)
    as (Htrain & Hval & Htest).
  exists (with_split_files data_dir train val test w1), train, val, test.
  split_and!; try done. by apply partitions_unique.
Qed.

(** C2 (amended).  For every frame with exactly one [user_id] column
    that holds exactly 100 distinct identifiers (however often each is
    repeated), every seed from 0 to 2^32 - 1 and every usable target
    directory, the train, validation and test files hold 60, 20 and 20
    identifiers; and for every such frame whose identifiers are exactly
    1 to 10, with seed 42, they hold 6, 2 and 2, all among 1 to 10 and
    none repeated within or across the files. *)
Theorem create_user_splits_proportions :
  (∀ dataframe cells ids data_dir seed w,
     getitem dataframe "user_id" = Ok (Series cells) →
     distinct_ids cells ids = true →
     length ids = 100%nat →
     0 ≤ seed < 2 ^ 32 →
     writable w data_dir = true →
     ∃ w' train val test,
       create_user_splits dataframe data_dir seed w = (Ok (), w') ∧
       file_ids w' (join data_dir "train_users.csv") = Some train ∧
       file_ids w' (join data_dir "val_users.csv") = Some val ∧
       file_ids w' (join data_dir "test_users.csv") = Some test ∧
       length train = 60%nat ∧ length val = 20%nat ∧ length test = 20%nat) ∧
  (∀ dataframe cells data_dir w,
     getitem dataframe "user_id" = Ok (Series cells) →
     distinct_ids cells (int_ids 1 10) = true →
     writable w data_dir = true →
     ∃ w' train val test,
       create_user_splits dataframe data_dir 42 w = (Ok (), w') ∧
       file_ids w' (join data_dir "train_users.csv") = Some train ∧
       file_ids w' (join data_dir "val_users.csv") = Some val ∧
       file_ids w' (join data_dir "test_users.csv") = Some test ∧
       length train = 6%nat ∧ length val = 2%nat ∧ length test = 2%nat ∧
       (∀ v, v ∈ train ++ val ++ test → v ∈ int_ids 1 10) ∧
       NoDup (train ++ val ++ test)).
Proof.
  split.
  - intros dataframe cells ids data_dir seed w Hget Hids Hn Hseed Hw.
    apply distinct_ids_length in Hids. rewrite Hn in Hids.
    destruct (user_splits_Ok dataframe cells seed Hget) as
      (train & val & test & Hsplit & _ & Htrain & Hval & Htest);
      [lia|done|].
    destruct (create_user_splits_run dataframe data_dir seed w Hw)
      as (w1 & _ & _ & _ & Hrun).
    rewrite Hsplit in Hrun. rewrite Hids in *.
    destruct (file_ids_with_split_files data_dir train val test w1)
      as (? & ? & ?).
    by exists (with_split_files data_dir train val test w1), train, val, test.
  - intros dataframe cells data_dir w Hget Hids Hw.
    pose proof (distinct_ids_unique _ _ Hids) as Huniq.
    apply distinct_ids_length in Hids.
    change (length (int_ids 1 10)) with 10%nat in Hids.
    destruct (user_splits_Ok dataframe cells 42 Hget)
      as (train & val & test & Hsplit & Hperm & Htrain & Hval & Htest);
      [lia|lia|].
    destruct (create_user_splits_run dataframe data_dir 42 w Hw)
      as (w1 & _ & _ & _ & Hrun).
    rewrite Hsplit in Hrun. rewrite Hids in *.
    destruct (file_ids_with_split_files data_dir train val test w1)
      as (? & ? & ?).
    exists (with_split_files data_dir train val test w1), train, val, test.
    split_and!; try done.
    + intros v. by rewrite Hperm, Huniq.
    + rewrite Hperm. apply NoDup_unique.
Qed.

(** C3 (amended).  Two calls with the same seed whose frames have the
    same sequence of distinct identifiers in order of first appearance
    (in particular two calls on the same frame), each with a usable
    target directory, return the same result, and when they return
    normally each of the three files of the one holds exactly what the
    same file of the other holds.  The two calls may start from different
    worlds and write to different directories: what was there before,
    and what an earlier call left, does not reach the files. *)
Theorem create_user_splits_deterministic
  dataframe1 dataframe2 cells1 cells2 data_dir1 data_dir2 seed w1 w2 :
  getitem dataframe1 "user_id" = Ok (Series cells1) →
  getitem dataframe2 "user_id" = Ok (Series cells2) →
  unique cells1 = unique cells2 →
  writable w1 data_dir1 = true →
  writable w2 data_dir2 = true →
  ∃ r w1' w2',
    create_user_splits dataframe1 data_dir1 seed w1 = (r, w1') ∧
    create_user_splits dataframe2 data_dir2 seed w2 = (r, w2') ∧
    (r = Ok () →
     ∀ name, name ∈ split_names →
       is_Some (files w1' !! join data_dir1 name) ∧
       files w1' !! join data_dir1 name = files w2' !! join data_dir2 name).
Proof.
  intros Hget1 Hget2 Huniq Hw1 Hw2.
  destruct (create_user_splits_run dataframe1 data_dir1 seed w1 Hw1)
    as (w1a & _ & _ & _ & Hrun1).
  destruct (create_user_splits_run dataframe2 data_dir2 seed w2 Hw2)
    as (w2a & _ & _ & _ & Hrun2).
  assert (user_splits dataframe2 seed = user_splits dataframe1 seed) as Hsplit.
  { unfold user_splits. rewrite Hget1, Hget2. simpl. by rewrite Huniq. }
  rewrite Hsplit in Hrun2.
  destruct (user_splits dataframe1 seed) as [[[train val] test]|e].
  - eexists _, _, _. split; [exact Hrun1|]. split; [exact Hrun2|].
    intros _ name Hname. unfold split_names in Hname.
    rewrite !elem_of_cons, elem_of_nil in Hname.
    unfold with_split_files. cbn [files with_files].
    destruct Hname as [->|[->|[->|[]]]].
    + rewrite !(lookup_insert_ne _ (join _ "test_users.csv"))
        by (intros ?%join_inj; done).
      rewrite !(lookup_insert_ne _ (join _ "val_users.csv"))
        by (intros ?%join_inj; done).
      by rewrite !lookup_insert_eq.
    + rewrite !(lookup_insert_ne _ (join _ "test_users.csv"))
        by (intros ?%join_inj; done).
      by rewrite !lookup_insert_eq.
    + by rewrite !lookup_insert_eq.
  - eexists _, _, _. split; [exact Hrun1|]. split; [exact Hrun2|]. done.
Qed.

(** C4 (amended).  For every frame with exactly one [user_id] column and
    every usable target directory: with three or four distinct
    identifiers and a seed from 0 to 2^32 - 1 the call returns normally
    and none of the three files is empty; with fewer than three,
    [train_test_split] raises ValueError (the train part of one of the
    two cuts would be empty), whatever the seed, and no file is
    written. *)
Theorem create_user_splits_small_inputs dataframe cells ids data_dir seed w :
  getitem dataframe "user_id" = Ok (Series cells) →
  distinct_ids cells ids = true →
  writable w data_dir = true →
  ((3 ≤ length ids < 5)%nat →
   0 ≤ seed < 2 ^ 32 →
   ∃ w' train val test,
     create_user_splits dataframe data_dir seed w = (Ok (), w') ∧
     file_ids w' (join data_dir "train_users.csv") = Some train ∧
     file_ids w' (join data_dir "val_users.csv") = Some val ∧
     file_ids w' (join data_dir "test_users.csv") = Some test ∧
     train ≠ [] ∧ val ≠ [] ∧ test ≠ []) ∧
  ((length ids < 3)%nat →
   ∃ w',
     create_user_splits dataframe data_dir seed w = (Raise ValueError, w') ∧
     files w' = files w).
Proof.
  intros Hget Hids%distinct_ids_length Hw. rewrite <- Hids.
  destruct (create_user_splits_run dataframe data_dir seed w Hw)
    as (w1 & (Hfiles & _ & _) & _ & _ & Hrun).
  split.
  - intros Hn Hseed.
    destruct (user_splits_Ok dataframe cells seed Hget) as
      (train & val & test & Hsplit & _ & Htrain & Hval & Htest);
      [lia|done|].
    rewrite Hsplit in Hrun.
    destruct (file_ids_with_split_files data_dir train val test w1)
      as (? & ? & ?).
    exists (with_split_files data_dir train val test w1), train, val, test.
    assert (length (unique cells) = 3 ∨ length (unique cells) = 4)%nat
      as [Hlen|Hlen] by lia; rewrite Hlen in *;
      repeat split; try done; intros ->; done.
  - intros Hn.
    rewrite (user_splits_small dataframe cells seed Hget Hn) in Hrun.
    by exists w1.
Qed.

(** C8.  When no column of the frame is named [user_id] the call raises,
    no file is written and nothing is printed; the exception is the
    KeyError of the column selection whenever the directory step itself
    succeeds (otherwise it is the error of [os.makedirs], raised before
    the selection). *)
Theorem create_user_splits_missing_column dataframe data_dir seed w :
  "user_id" ∉ column_names dataframe →
  ∃ e w',
    create_user_splits dataframe data_dir seed w = (Raise e, w') ∧
    files w' = files w ∧ trace w' = trace w ∧
    (writable w data_dir = true → e = KeyError).
Proof.
  intros Hname.
  assert (user_splits dataframe seed = Raise KeyError) as Hsplit.
  { unfold user_splits. by rewrite getitem_KeyError. }
  destruct (create_user_splits_Raise dataframe data_dir seed w _ Hsplit)
    as (e & w' & Hrun & Hfiles & _ & Htrace).
  exists e, w'. repeat split; try done.
  intros Hw.
  destruct (create_user_splits_run dataframe data_dir seed w Hw)
    as (w1 & _ & _ & _ & Hrun').
  rewrite Hsplit, Hrun in Hrun'. by simplify_eq.
Qed.

(** C9.  The call depends on the frame only through its columns named
    [user_id]: two frames that agree on them give, for the same seed,
    directory and starting world, the same result and the same world. *)
Theorem create_user_splits_only_user_id dataframe1 dataframe2 data_dir seed w :
  filter (λ c, c.1 = "user_id") (columns dataframe1)
  = filter (λ c, c.1 = "user_id") (columns dataframe2) →
  create_user_splits dataframe1 data_dir seed w
  = create_user_splits dataframe2 data_dir seed w.
Proof.
  intros Hcols.
  assert (getitem dataframe1 "user_id" = getitem dataframe2 "user_id") as Hget
    by (unfold getitem; by rewrite Hcols).
  unfold create_user_splits, user_splits. by rewrite Hget.
Qed.

(** C10.  When the target directory does not exist and no regular file
    lies on its path, the call creates it together with every missing
    directory above it, before anything else: whatever the call returns,
    the directory and all its ancestors exist afterwards, and the call
    returns normally, with the three files in the new directory, whenever
    lines 126 to 130 compute a split. *)
Theorem create_user_splits_creates_directory dataframe data_dir seed w :
  path_exists w data_dir = false →
  writable w data_dir = true →
  well_formed w = true →
  ∃ r w',
    create_user_splits dataframe data_dir seed w = (r, w') ∧
    (∀ q, q `prefix_of` data_dir → isdir w' q = true) ∧
    (∀ ids, user_splits dataframe seed = Ok ids →
       r = Ok () ∧
       ∀ name, name ∈ split_names → isfile w' (join data_dir name) = true).
Proof.
  intros Hnew Hw Hwf.
  destruct (create_user_splits_run dataframe data_dir seed w Hw)
    as (w1 & _ & _ & Hdirs & Hrun).
  specialize (Hdirs Hwf).
  destruct (user_splits dataframe seed) as [[[train val] test]|e].
  - eexists _, _. split; [exact Hrun|]. split; [exact Hdirs|].
    intros ids _. split; [done|].
    intros name Hname. unfold isfile, with_split_files. simpl.
    apply bool_decide_eq_true.
    unfold split_names in Hname.
    rewrite !elem_of_cons, elem_of_nil in Hname.
    destruct Hname as [->|[->|[->|[]]]].
    + rewrite lookup_insert_ne by (intros ?%join_inj; done).
      rewrite lookup_insert_ne by (intros ?%join_inj; done).
      by rewrite lookup_insert_eq.
    + rewrite lookup_insert_ne by (intros ?%join_inj; done).
      by rewrite lookup_insert_eq.
    + by rewrite lookup_insert_eq.
  - eexists _, _. split; [exact Hrun|]. split; [exact Hdirs|]. done.
Qed.
End create_user_splits_claims.

(** ** The split depends on the order of first appearance *)

Lemma train_test_split_unfold `{RandomState} {A}
  (array : list A) n test_size seed :
  length array = n →
  train_test_split array test_size seed =
  ('(n_train, n_test) ← validate_shuffle_split n test_size;
   rng ← check_random_state seed;
   train ← safe_indexing array
     (take (Z.to_nat n_train) (drop (Z.to_nat n_test) (permutation rng n)));
   test ← safe_indexing array (take (Z.to_nat n_test) (permutation rng n));
   mret (train, test)).
Proof. intros <-. reflexivity. Qed.

(** Evaluates the closed indexings of the goal. *)
Ltac eval_indexing :=
  repeat match goal with
         | |- context [safe_indexing ?a ?i] =>
             let v := eval vm_compute in (safe_indexing a i) in
             change (safe_indexing a i) with v
         end;
  cbn [mbind result_bind mret result_ret].

(** Whatever the generator, the identifiers 1, 2, 3 and the same three
    in the order 3, 2, 1 are split differently: by cases on the two
    permutations drawn. *)
Lemma user_splits_order `{RandomState} :
  user_splits (users_frame (int_ids 1 3)) 42
  ≠ user_splits (users_frame [VInt 3; VInt 2; VInt 1]) 42.
Proof.
  pose proof (permutation_range 42 3 ltac:(lia)) as H3.
  pose proof (permutation_range 42 2 ltac:(lia)) as H2.
  symmetry in H3, H2.
  apply permutations_Permutation in H3, H2.
  remember (permutation 42 3) as p3 eqn:Hp3.
  remember (permutation 42 2) as p2 eqn:Hp2.
  vm_compute in H3, H2.
  unfold user_splits.
  change (getitem (users_frame (int_ids 1 3)) "user_id" ≫= selection_unique)
    with (Ok [VInt 1; VInt 2; VInt 3]).
  change (getitem (users_frame [VInt 3; VInt 2; VInt 1]) "user_id"
            ≫= selection_unique)
    with (Ok [VInt 3; VInt 2; VInt 1]).
  cbn [mbind result_bind].
  rewrite !(train_test_split_unfold _ 3) by reflexivity.
  change (validate_shuffle_split 3 (2 # 5)) with (Ok (1, 2) : result (Z * Z)).
  change (check_random_state 42) with (Ok 42).
  cbn [mbind result_bind]. rewrite <- Hp3.
  repeat (apply elem_of_cons in H3 as [->|H3]);
    try (by apply elem_of_nil in H3);
    eval_indexing;
    rewrite !(train_test_split_unfold _ 2) by reflexivity;
    change (validate_shuffle_split 2 (1 # 2)) with (Ok (1, 1) : result (Z * Z));
    change (check_random_state 42) with (Ok 42);
    cbn [mbind result_bind]; rewrite <- Hp2;
    repeat (apply elem_of_cons in H2 as [->|H2]);
    try (by apply elem_of_nil in H2);
    eval_indexing; discriminate.
Qed.

(** ** Counterexamples to the claims as stated *)

(** C1 as stated fails.  A frame with a [user_id] column holding two
    distinct identifiers, seed 42, a fresh directory in the empty world:
    whatever the generator, the call raises ValueError and writes nothing.
    The same happens with ten identifiers and the seed -1. *)
Lemma create_user_splits_partition_counterexample :
  getitem (users_frame (int_ids 1 2)) "user_id" = Ok (Series (int_ids 1 2)) ∧
  writable empty_world ["data"; "splits"] = true ∧
  (∀ R : RandomState, ∃ w',
     @create_user_splits R (users_frame (int_ids 1 2)) ["data"; "splits"] 42
       empty_world = (Raise ValueError, w') ∧ files w' = ∅) ∧
  (∀ R : RandomState, ∃ w',
     @create_user_splits R (users_frame (int_ids 1 10)) ["data"; "splits"] (-1)
       empty_world = (Raise ValueError, w') ∧ files w' = ∅).
Proof.
  split; [done|]. split; [done|]. split; intros R.
  - destruct (create_user_splits_run (users_frame (int_ids 1 2))
                ["data"; "splits"] 42 empty_world eq_refl)
      as (w1 & (Hfiles & _ & _) & _ & _ & Hrun).
    rewrite (user_splits_small _ (int_ids 1 2)) in Hrun; [|done|vm_compute; lia].
    by exists w1.
  - destruct (create_user_splits_run (users_frame (int_ids 1 10))
                ["data"; "splits"] (-1) empty_world eq_refl)
      as (w1 & (Hfiles & _ & _) & _ & _ & Hrun).
    rewrite (user_splits_seed _ (int_ids 1 10)) in Hrun; [|done|lia].
    by exists w1.
Qed.

(** C2 as stated fails.  One hundred distinct identifiers, the seed -1, a
    fresh directory in the empty world: whatever the generator, the call
    raises ValueError and no file holds any identifier. *)
Lemma create_user_splits_proportions_counterexample :
  distinct_ids (int_ids 1 100) (int_ids 1 100) = true ∧
  length (int_ids 1 100) = 100%nat ∧
  getitem (users_frame (int_ids 1 100)) "user_id"
    = Ok (Series (int_ids 1 100)) ∧
  writable empty_world ["data"; "splits"] = true ∧
  (∀ R : RandomState, ∃ w',
     @create_user_splits R (users_frame (int_ids 1 100)) ["data"; "splits"]
       (-1) empty_world = (Raise ValueError, w') ∧ files w' = ∅).
Proof.
  split_and!; [vm_compute; reflexivity|done|done|done|]. intros R.
  destruct (create_user_splits_run (users_frame (int_ids 1 100))
              ["data"; "splits"] (-1) empty_world eq_refl)
    as (w1 & (Hfiles & _ & _) & _ & _ & Hrun).
  rewrite (user_splits_seed _ (int_ids 1 100)) in Hrun; [|done|lia].
  by exists w1.
Qed.

(** C3 as stated fails.  The columns 1, 2, 3 and 3, 2, 1 hold the same
    set of identifiers; with the same seed, directory and starting
    world both calls return normally, whatever the generator, and the
    three files of the one are never the three files of the other. *)
Lemma create_user_splits_deterministic_counterexample :
  int_ids 1 3 ≡ₚ [VInt 3; VInt 2; VInt 1] ∧
  (∀ R : RandomState, ∃ w1 w2,
     @create_user_splits R (users_frame (int_ids 1 3)) ["data"; "splits"] 42
       empty_world = (Ok (), w1) ∧
     @create_user_splits R (users_frame [VInt 3; VInt 2; VInt 1])
       ["data"; "splits"] 42 empty_world = (Ok (), w2) ∧
     ¬ (file_ids w1 (join ["data"; "splits"] "train_users.csv")
          = file_ids w2 (join ["data"; "splits"] "train_users.csv") ∧
        file_ids w1 (join ["data"; "splits"] "val_users.csv")
          = file_ids w2 (join ["data"; "splits"] "val_users.csv") ∧
        file_ids w1 (join ["data"; "splits"] "test_users.csv")
          = file_ids w2 (join ["data"; "splits"] "test_users.csv"))).
Proof.
  split.
  { apply (Permutation_rev (int_ids 1 3)). }
  intros R.
  pose proof (@user_splits_order R) as Hne.
  destruct (user_splits_Ok (users_frame (int_ids 1 3)) (int_ids 1 3) 42)
    as (tr1 & va1 & te1 & Hs1 & _); [done|vm_compute; lia|lia|].
  destruct (user_splits_Ok (users_frame [VInt 3; VInt 2; VInt 1])
              [VInt 3; VInt 2; VInt 1] 42)
    as (tr2 & va2 & te2 & Hs2 & _); [done|vm_compute; lia|lia|].
  destruct (create_user_splits_run (users_frame (int_ids 1 3))
              ["data"; "splits"] 42 empty_world eq_refl)
    as (w1 & _ & _ & _ & Hrun1).
  destruct (create_user_splits_run (users_frame [VInt 3; VInt 2; VInt 1])
              ["data"; "splits"] 42 empty_world eq_refl)
    as (w2 & _ & _ & _ & Hrun2).
  rewrite Hs1 in Hrun1. rewrite Hs2 in Hrun2.
  eexists _, _. split; [exact Hrun1|]. split; [exact Hrun2|].
  intros (Htrain & Hval & Htest). apply Hne. rewrite Hs1, Hs2.
  destruct (file_ids_with_split_files ["data"; "splits"] tr1 va1 te1 w1)
    as (Ha1 & Hb1 & Hc1).
  destruct (file_ids_with_split_files ["data"; "splits"] tr2 va2 te2 w2)
    as (Ha2 & Hb2 & Hc2).
  rewrite Ha1, Ha2 in Htrain. rewrite Hb1, Hb2 in Hval.
  rewrite Hc1, Hc2 in Htest. by simplify_eq.
Qed.

(** C4 as stated fails.  One identifier (fewer than five), seed 42, a
    fresh directory in the empty world: whatever the generator, the call
    raises ValueError and writes nothing.  The same happens with four
    identifiers and the seed -1. *)
Lemma create_user_splits_small_inputs_counterexample :
  distinct_ids (int_ids 1 1) (int_ids 1 1) = true ∧
  distinct_ids (int_ids 1 4) (int_ids 1 4) = true ∧
  (length (int_ids 1 1) < 5)%nat ∧ (length (int_ids 1 4) < 5)%nat ∧
  getitem (users_frame (int_ids 1 1)) "user_id" = Ok (Series (int_ids 1 1)) ∧
  getitem (users_frame (int_ids 1 4)) "user_id" = Ok (Series (int_ids 1 4)) ∧
  writable empty_world ["data"; "splits"] = true ∧
  (∀ R : RandomState, ∃ w',
     @create_user_splits R (users_frame (int_ids 1 1)) ["data"; "splits"] 42
       empty_world = (Raise ValueError, w') ∧ files w' = ∅) ∧
  (∀ R : RandomState, ∃ w',
     @create_user_splits R (users_frame (int_ids 1 4)) ["data"; "splits"] (-1)
       empty_world = (Raise ValueError, w') ∧ files w' = ∅).
Proof.
  split_and!; [done|done|vm_compute; lia|vm_compute; lia|done|done|done|..];
    intros R.
  - destruct (create_user_splits_run (users_frame (int_ids 1 1))
                ["data"; "splits"] 42 empty_world eq_refl)
      as (w1 & (Hfiles & _ & _) & _ & _ & Hrun).
    rewrite (user_splits_small _ (int_ids 1 1)) in Hrun;
      [|done|vm_compute; lia].
    by exists w1.
  - destruct (create_user_splits_run (users_frame (int_ids 1 4))
                ["data"; "splits"] (-1) empty_world eq_refl)
      as (w1 & (Hfiles & _ & _) & _ & _ & Hrun).
    rewrite (user_splits_seed _ (int_ids 1 4)) in Hrun; [|done|lia].
    by exists w1.
Qed.

(** ** The claims at sample inputs *)

(** Five identifiers, with one repeated in the column, seed 42, a fresh
    directory in the empty world, the rotating generator. *)
Lemma create_user_splits_partition_witness :
  ∃ w' train val test,
    @create_user_splits rotation (users_frame (VInt 3 :: int_ids 1 5))
      ["data"; "splits"] 42 empty_world = (Ok (), w') ∧
    file_ids w' (join ["data"; "splits"] "train_users.csv") = Some train ∧
    file_ids w' (join ["data"; "splits"] "val_users.csv") = Some val ∧
    file_ids w' (join ["data"; "splits"] "test_users.csv") = Some test ∧
    partitions train val test (VInt 3 :: int_ids 1 5).
Proof.
  apply (@create_user_splits_partition rotation);
    [reflexivity|vm_compute; lia|lia|reflexivity].
Defined.

Lemma create_user_splits_proportions_witness :
  (∃ w' train val test,
     @create_user_splits rotation
       (users_frame (int_ids 1 100 ++ int_ids 1 50))
       ["data"; "splits"] 7 empty_world = (Ok (), w') ∧
     file_ids w' (join ["data"; "splits"] "train_users.csv") = Some train ∧
     file_ids w' (join ["data"; "splits"] "val_users.csv") = Some val ∧
     file_ids w' (join ["data"; "splits"] "test_users.csv") = Some test ∧
     length train = 60%nat ∧ length val = 20%nat ∧ length test = 20%nat) ∧
  (∃ w' train val test,
     @create_user_splits rotation
       (users_frame (VInt 10 :: VInt 10 :: int_ids 1 10))
       ["data"; "splits"] 42 empty_world = (Ok (), w') ∧
     file_ids w' (join ["data"; "splits"] "train_users.csv") = Some train ∧
     file_ids w' (join ["data"; "splits"] "val_users.csv") = Some val ∧
     file_ids w' (join ["data"; "splits"] "test_users.csv") = Some test ∧
     length train = 6%nat ∧ length val = 2%nat ∧ length test = 2%nat ∧
     (∀ v, v ∈ train ++ val ++ test → v ∈ int_ids 1 10) ∧
     NoDup (train ++ val ++ test)).
Proof.
  split.
  - apply (proj1 (@create_user_splits_proportions rotation)
             (users_frame (int_ids 1 100 ++ int_ids 1 50))
             (int_ids 1 100 ++ int_ids 1 50) (int_ids 1 100));
      [reflexivity|vm_compute; reflexivity|reflexivity|lia|reflexivity].
  - apply (proj2 (@create_user_splits_proportions rotation)
             (users_frame (VInt 10 :: VInt 10 :: int_ids 1 10))
             (VInt 10 :: VInt 10 :: int_ids 1 10));
      [reflexivity|vm_compute; reflexivity|reflexivity].
Defined.

(** Two calls in a row into the same directory, the second started in
    the world the first left, on frames whose columns differ in their
    repeats only. *)
Lemma create_user_splits_deterministic_witness :
  ∃ r w1' w2',
    @create_user_splits rotation
      (users_frame [VInt 1; VInt 2; VInt 2; VInt 3]) ["data"; "splits"] 42
      empty_world = (r, w1') ∧
    @create_user_splits rotation
      (users_frame [VInt 1; VInt 2; VInt 3; VInt 3; VInt 1]) ["data"; "splits"]
      42
      (@create_user_splits rotation
         (users_frame [VInt 1; VInt 2; VInt 2; VInt 3]) ["data"; "splits"] 42
         empty_world).2 = (r, w2') ∧
    (r = Ok () →
     ∀ name, name ∈ split_names →
       is_Some (files w1' !! join ["data"; "splits"] name) ∧
       files w1' !! join ["data"; "splits"] name
       = files w2' !! join ["data"; "splits"] name).
Proof.
  apply (@create_user_splits_deterministic rotation _ _
           [VInt 1; VInt 2; VInt 2; VInt 3]
           [VInt 1; VInt 2; VInt 3; VInt 3; VInt 1]);
    vm_compute; reflexivity.
Defined.

Lemma create_user_splits_small_inputs_witness :
  (∃ w' train val test,
     @create_user_splits rotation (users_frame (VInt 2 :: int_ids 1 4))
       ["data"; "splits"] 42 empty_world = (Ok (), w') ∧
     file_ids w' (join ["data"; "splits"] "train_users.csv") = Some train ∧
     file_ids w' (join ["data"; "splits"] "val_users.csv") = Some val ∧
     file_ids w' (join ["data"; "splits"] "test_users.csv") = Some test ∧
     train ≠ [] ∧ val ≠ [] ∧ test ≠ []) ∧
  (∃ w',
     @create_user_splits rotation
       (users_frame [VInt 1; VInt 1; VInt 2; VInt 1; VInt 2])
       ["data"; "splits"] 42 empty_world = (Raise ValueError, w') ∧
     files w' = files empty_world).
Proof.
  split.
  - apply (proj1 (@create_user_splits_small_inputs rotation
                    (users_frame (VInt 2 :: int_ids 1 4))
                    (VInt 2 :: int_ids 1 4) (int_ids 1 4)
                    ["data"; "splits"] 42 empty_world
                    eq_refl eq_refl eq_refl)); [vm_compute|]; lia.
  - apply (proj2 (@create_user_splits_small_inputs rotation
                    (users_frame [VInt 1; VInt 1; VInt 2; VInt 1; VInt 2])
                    [VInt 1; VInt 1; VInt 2; VInt 1; VInt 2] (int_ids 1 2)
                    ["data"; "splits"] 42 empty_world
                    eq_refl eq_refl eq_refl)).
    vm_compute. lia.
Defined.

(** A frame whose only column is named [uid]. *)
Lemma create_user_splits_missing_column_witness :
  ∃ e w',
    @create_user_splits rotation
      {| index := [[VInt 0]]; columns := [("uid", [VInt 1])] |}
      ["data"; "splits"] 42 empty_world = (Raise e, w') ∧
    files w' = files empty_world ∧ trace w' = trace empty_world ∧
    (writable empty_world ["data"; "splits"] = true → e = KeyError).
Proof.
  apply (@create_user_splits_missing_column rotation).
  apply (bool_decide_unpack _). vm_compute. exact I.
Defined.

(** The same [user_id] column with and without a second column. *)
Lemma create_user_splits_only_user_id_witness :
  @create_user_splits rotation (users_frame (int_ids 1 5))
    ["data"; "splits"] 42 empty_world
  = @create_user_splits rotation (frame_of_array (int_ids 1 5) "user_id")
      ["data"; "splits"] 42 empty_world.
Proof.
  apply (@create_user_splits_only_user_id rotation). reflexivity.
Defined.

Lemma create_user_splits_creates_directory_witness :
  ∃ r w',
    @create_user_splits rotation (users_frame (int_ids 1 5))
      ["data"; "splits"] 42 empty_world = (r, w') ∧
    (∀ q, q `prefix_of` ["data"; "splits"] → isdir w' q = true) ∧
    (∀ ids, @user_splits rotation (users_frame (int_ids 1 5)) 42 = Ok ids →
       r = Ok () ∧
       ∀ name, name ∈ split_names →
               isfile w' (join ["data"; "splits"] name) = true).
Proof.
  apply (@create_user_splits_creates_directory rotation); reflexivity.
Defined.

(** ** mapping_tables.py *)

(** C6.  [age_mapping] has exactly the seven keys 1, 18, 25, 35, 45, 50,
    56; [occupation_mapping] has exactly the twenty-one keys 0 to 20; no
    label of either is the empty string. *)
Theorem mapping_tables_keys :
  dom age_mapping = list_to_set [1; 18; 25; 35; 45; 50; 56] ∧
  size age_mapping = 7%nat ∧
  dom occupation_mapping = list_to_set (seqZ 0 21) ∧
  size occupation_mapping = 21%nat ∧
  map_Forall (λ _ label, label ≠ "") age_mapping ∧
  map_Forall (λ _ label, label ≠ "") occupation_mapping.
Proof.
  split_and!.
  - unfold age_mapping. by rewrite dom_list_to_map_L.
  - apply (bool_decide_unpack _). vm_compute. exact I.
  - unfold occupation_mapping. by rewrite dom_list_to_map_L.
  - apply (bool_decide_unpack _). vm_compute. exact I.
  - apply (bool_decide_unpack _). vm_compute. exact I.
  - apply (bool_decide_unpack _). vm_compute. exact I.
Qed.

(** ** The loaders *)

Lemma column_names_frame_of_rows (names : list string) rows df :
  frame_of_rows names rows = Ok df → column_names df = names.
Proof.
  unfold frame_of_rows. destruct (forallb _ rows); [|done].
  intros [= <-]. unfold column_names. simpl.
  rewrite <- list_fmap_compose.
  change (snd <$> zip (seq 0 (length names)) names = names).
  apply snd_zip. by rewrite length_seq.
Qed.

(** Rows that all have as many fields as there are names make a frame
    with one row label and one cell per column for each of them. *)
Lemma frame_of_rows_exact (names : list string) (rows : list (list string)) :
  Forall (λ row, length row = length names) rows →
  ∃ df, frame_of_rows names rows = Ok df ∧
        nrows df = length rows ∧
        Forall (λ c, length c.2 = length rows) (columns df).
Proof.
  intros Hrows. unfold frame_of_rows.
  assert (match rows with
          | first :: _ => (length first - length names)%nat
          | [] => 0%nat
          end = 0%nat) as ->.
  { destruct Hrows as [|first rest Hfirst _]; [done|]. lia. }
  assert (forallb (λ row, (length row <=? length names + 0)%nat) rows = true)
    as ->.
  { apply forallb_forall. intros row Hrow%list_elem_of_In.
    rewrite Forall_forall in Hrows. apply Nat.leb_le.
    rewrite (Hrows row Hrow). lia. }
  eexists. split; [done|]. unfold nrows. simpl. split.
  - by rewrite length_fmap, length_seq.
  - apply Forall_fmap, Forall_forall. intros jn _. simpl.
    by rewrite length_fmap.
Qed.

Lemma filter_Forall {A} (P : A → Prop) `{!∀ x, Decision (P x)} (l : list A) :
  Forall P l → filter P l = l.
Proof.
  induction 1 as [|x l Hx _ IH]; [done|].
  rewrite filter_cons_True by done. by rewrite IH.
Qed.

Lemma well_formed_file_rows k s :
  (2 ≤ k)%nat → well_formed_file k s = true →
  data_rows s = (λ line, split_fields (strip line)) <$> readlines s ∧
  Forall (λ row, length row = k) (data_rows s).
Proof.
  intros Hk Hwf. unfold well_formed_file in Hwf.
  rewrite forallb_forall in Hwf. unfold data_rows, raw_rows.
  destruct (readlines s) as [|line lines] eqn:Hlines.
  - split; [done|]. by constructor.
  - assert (Forall (λ row, length row = k)
              ((λ line, split_fields (strip line)) <$> line :: lines)) as Hall.
    { apply Forall_fmap, Forall_forall. intros l Hl%list_elem_of_In.
      by apply Nat.eqb_eq, Hwf. }
    assert (filter (λ row, is_blank_row row = false)
              ((λ line, split_fields (strip line)) <$> line :: lines)
            = (λ line, split_fields (strip line)) <$> line :: lines) as ->;
      [|done].
    apply filter_Forall. eapply Forall_impl; [exact Hall|].
    intros row Hrow. destruct row as [|f [|g row]]; simpl in *; [lia|lia|done].
Qed.

Lemma parse_csv_well_formed names s :
  (2 ≤ length names)%nat →
  well_formed_file (length names) s = true →
  ∃ df, parse_csv names s = Ok df ∧
        column_names df = names ∧
        nrows df = length (readlines s) ∧
        Forall (λ c, length c.2 = length (readlines s)) (columns df).
Proof.
  intros Hk Hwf.
  destruct (well_formed_file_rows _ s Hk Hwf) as [Hrows Hall].
  destruct (frame_of_rows_exact names (data_rows s) Hall)
    as (df & Hdf & Hn & Hcols).
  exists df. unfold parse_csv. split; [done|].
  split; [by eapply column_names_frame_of_rows|].
  rewrite Hrows, length_fmap in Hn, Hcols. done.
Qed.

Lemma read_csv_well_formed p names s w :
  files w !! p = Some (Text s) →
  (2 ≤ length names)%nat →
  well_formed_file (length names) s = true →
  ∃ df, read_csv p names w = Some (Ok df) ∧
        column_names df = names ∧
        nrows df = length (readlines s) ∧
        Forall (λ c, length c.2 = length (readlines s)) (columns df).
Proof.
  intros Hfile Hk Hwf.
  destruct (parse_csv_well_formed names s Hk Hwf) as (df & Hdf & ?).
  exists df. split; [|done].
  unfold read_csv, read_file. rewrite Hfile. simpl. by rewrite Hdf.
Qed.

(** C7.  When the file a loader reads is well formed (each of its N
    lines, once stripped, has as many fields as the loader has column
    names), the loader returns a frame with exactly N rows and exactly
    its column names, in order; every column has N cells. *)
Theorem loaders_schema data_dir w :
  (∀ s, files w !! join (join data_dir "ml-1m") "ratings.dat" = Some (Text s) →
        well_formed_file 4 s = true →
        ∃ df, load_movielens_ratings data_dir w = Some (Ok df) ∧
              column_names df = ["user_id"; "movie_id"; "rating"; "timestamp"] ∧
              nrows df = length (readlines s) ∧
              Forall (λ c, length c.2 = length (readlines s)) (columns df)) ∧
  (∀ s, files w !! join (join data_dir "ml-1m") "users.dat" = Some (Text s) →
        well_formed_file 5 s = true →
        ∃ df, load_movielens_users data_dir w = Some (Ok df) ∧
              column_names df
                = ["user_id"; "gender"; "age"; "occupation"; "zip_code"] ∧
              nrows df = length (readlines s) ∧
              Forall (λ c, length c.2 = length (readlines s)) (columns df)) ∧
  (∀ s, files w !! join (join data_dir "ml-1m") "movies.dat" = Some (Text s) →
        well_formed_file 3 s = true →
        ∃ df, load_movielens_movies data_dir w = Some (Ok df) ∧
              column_names df = ["movie_id"; "title"; "genres"] ∧
              nrows df = length (readlines s) ∧
              Forall (λ c, length c.2 = length (readlines s)) (columns df)).
Proof.
  split_and!; intros s Hfile Hwf.
  - apply (read_csv_well_formed _ ratings_columns s w Hfile); [simpl; lia|done].
  - apply (read_csv_well_formed _ users_columns s w Hfile); [simpl; lia|done].
  - apply (read_csv_well_formed _ movies_columns s w Hfile); [simpl; lia|done].
Qed.

(** ** Acquisition *)

Lemma bind_Ok_inv {A B} (m : M A) (f : A → M B) w b w' :
  (m ≫= f) w = (Ok b, w') → ∃ a w1, m w = (Ok a, w1) ∧ f a w1 = (Ok b, w').
Proof.
  rewrite run_bind. destruct (m w) as [[a|e] w1]; [|done].
  intros Hf. by exists a, w1.
Qed.

Lemma fetches_snoc t e :
  fetches (t ++ [e]) = (fetches t + if is_fetch e then 1 else 0)%nat.
Proof.
  unfold fetches. rewrite filter_app, length_app. by destruct e.
Qed.

Lemma extractions_snoc t e :
  extractions (t ++ [e]) = (extractions t + if is_extraction e then 1 else 0)%nat.
Proof.
  unfold extractions. rewrite filter_app, length_app. by destruct e.
Qed.

(** Unfolds a primitive and goes through its branches. *)
Ltac primitive_cases :=
  intros w;
  repeat match goal with
         | |- context [if ?b then _ else _] => destruct b
         | |- context [match ?x with Some _ => _ | None => _ end] => destruct x
         end;
  simpl.

Lemma print_grows msg : preserves grows (print msg).
Proof. by intros w. Qed.

Lemma print_keeps_fetches msg : preserves keeps_fetches (print msg).
Proof.
  intros w. unfold keeps_fetches. simpl. rewrite fetches_snoc. simpl. lia.
Qed.

Lemma print_keeps_extractions msg : preserves keeps_extractions (print msg).
Proof.
  intros w. unfold keeps_extractions. simpl. rewrite extractions_snoc.
  simpl. lia.
Qed.

Lemma write_file_grows p c : preserves grows (write_file p c).
Proof.
  unfold write_file. primitive_cases; split; simpl; try done.
  rewrite dom_insert_L. set_solver.
Qed.

Lemma write_file_keeps_fetches p c : preserves keeps_fetches (write_file p c).
Proof. unfold write_file. primitive_cases; done. Qed.

Lemma write_file_keeps_extractions p c :
  preserves keeps_extractions (write_file p c).
Proof. unfold write_file. primitive_cases; done. Qed.

Lemma write_file_Ok_exists p c w w' :
  write_file p c w = (Ok (), w') → path_exists w' p = true.
Proof.
  unfold write_file.
  repeat match goal with |- context [if ?b then _ else _] => destruct b end;
    intros [= <-].
  unfold path_exists, isfile. simpl. rewrite lookup_insert_eq.
  apply orb_true_iff. right. by apply bool_decide_eq_true.
Qed.

Lemma preserves_weaken {A} (R1 R2 : relation world) (m : M A) :
  (∀ w w', R1 w w' → R2 w w') → preserves R1 m → preserves R2 m.
Proof. intros Hsub Hm w. apply Hsub, Hm. Qed.

Lemma mkdir_keeps_fetches p : preserves keeps_fetches (mkdir p).
Proof.
  eapply preserves_weaken; [apply keeps_files_fetches|apply mkdir_keeps_files].
Qed.


Lemma makedirs_keeps_fetches p : preserves keeps_fetches (makedirs p).
Proof.
  eapply preserves_weaken;
    [apply keeps_files_fetches|apply makedirs_keeps_files].
Qed.


Lemma urlretrieve_grows u dest : preserves grows (urlretrieve u dest).
Proof.
  intros w. unfold urlretrieve. destruct (net w !! u) as [c|]; [|done].
  apply (write_file_grows dest c
           (with_trace (trace w ++ [UrlRetrieve u dest]) w)).
Qed.

Lemma urlretrieve_keeps_extractions u dest :
  preserves keeps_extractions (urlretrieve u dest).
Proof.
  intros w. unfold urlretrieve.
  assert (keeps_extractions w (with_trace (trace w ++ [UrlRetrieve u dest]) w))
    as Hstep.
  { unfold keeps_extractions. simpl. rewrite extractions_snoc. simpl. lia. }
  destruct (net w !! u) as [c|]; [|done].
  pose proof (write_file_keeps_extractions dest c
                (with_trace (trace w ++ [UrlRetrieve u dest]) w)) as Hwrite.
  unfold keeps_extractions in *. congruence.
Qed.

Lemma urlretrieve_Ok_exists u dest w w' :
  urlretrieve u dest w = (Ok (), w') → path_exists w' dest = true.
Proof.
  unfold urlretrieve. destruct (net w !! u) as [c|]; [|done].
  apply write_file_Ok_exists.
Qed.

Lemma extract_member_grows dest m : preserves grows (extract_member dest m).
Proof.
  unfold extract_member. destruct m as [name [data|]]; simpl;
    preserves_steps;
    first [apply makedirs_grows|apply write_file_grows|apply mkdir_grows].
Qed.

Lemma extract_member_keeps_fetches dest m :
  preserves keeps_fetches (extract_member dest m).
Proof.
  unfold extract_member. destruct m as [name [data|]]; simpl;
    preserves_steps;
    first [apply makedirs_keeps_fetches|apply write_file_keeps_fetches
          |apply mkdir_keeps_fetches].
Qed.

Lemma extract_members_grows dest ms : preserves grows (extract_members dest ms).
Proof.
  induction ms as [|m ms IH]; simpl; preserves_steps.
  apply extract_member_grows.
Qed.

Lemma extract_members_keeps_fetches dest ms :
  preserves keeps_fetches (extract_members dest ms).
Proof.
  induction ms as [|m ms IH]; simpl; preserves_steps.
  apply extract_member_keeps_fetches.
Qed.

Lemma ZipFile_preserves (R : relation world) `{!PreOrder R} archive :
  preserves R (ZipFile archive).
Proof.
  unfold ZipFile. apply preserves_bind; [apply _|preserves_steps|intros c].
  destruct c; preserves_steps.
Qed.

Lemma ZipFile_Ok archive ms w w' :
  ZipFile archive w = (Ok ms, w') →
  w' = w ∧ files w !! archive = Some (ZipArchive ms).
Proof.
  unfold ZipFile. intros (c & w1 & Hread & Hc)%bind_Ok_inv.
  unfold read_file in Hread.
  destruct (files w !! archive) as [c'|] eqn:Hfile;
    [|by destruct (isdir w archive)].
  injection Hread as <- <-.
  destruct c' as [s|ms'|h r]; [done| |done]. by injection Hc as <- <-.
Qed.

Lemma extractall_grows archive dest : preserves grows (extractall archive dest).
Proof.
  unfold extractall.
  apply preserves_bind; [apply _|apply ZipFile_preserves; apply _|intros ms].
  apply preserves_bind; [apply _|by intros w|intros _].
  apply extract_members_grows.
Qed.

Lemma extractall_keeps_fetches archive dest :
  preserves keeps_fetches (extractall archive dest).
Proof.
  unfold extractall.
  apply preserves_bind; [apply _|apply ZipFile_preserves; apply _|intros ms].
  apply preserves_bind; [apply _| |intros _].
  - intros w. unfold keeps_fetches. simpl. rewrite fetches_snoc. simpl. lia.
  - apply extract_members_keeps_fetches.
Qed.

(** The three blocks of [download_and_extract_movielens_1m]. *)

Lemma fetch_block_grows zip (e : bool) :
  preserves grows
    (if negb e then
       print ("Downloading MovieLens 1M dataset to " ++ show zip ++ "...")%string;;
       urlretrieve url zip;;
       print "Download completed!"
     else print ("Dataset already exists at " ++ show zip ++ ".")%string).
Proof.
  preserves_steps;
    first [apply print_grows|apply urlretrieve_grows].
Qed.

Lemma fetch_block_keeps_extractions zip (e : bool) :
  preserves keeps_extractions
    (if negb e then
       print ("Downloading MovieLens 1M dataset to " ++ show zip ++ "...")%string;;
       urlretrieve url zip;;
       print "Download completed!"
     else print ("Dataset already exists at " ++ show zip ++ ".")%string).
Proof.
  preserves_steps;
    first [apply print_keeps_extractions|apply urlretrieve_keeps_extractions].
Qed.

Lemma extract_block_grows zip dir ext (e : bool) :
  preserves grows
    (if negb e then
       print ("Extracting " ++ show zip ++ " to " ++ show ext ++ "...")%string;;
       extractall zip dir;;
       print "Extraction completed!"
     else print ("Extracted files already exist in " ++ show ext ++ ".")%string).
Proof.
  preserves_steps; first [apply print_grows|apply extractall_grows].
Qed.

Lemma extract_block_keeps_fetches zip dir ext (e : bool) :
  preserves keeps_fetches
    (if negb e then
       print ("Extracting " ++ show zip ++ " to " ++ show ext ++ "...")%string;;
       extractall zip dir;;
       print "Extraction completed!"
     else print ("Extracted files already exist in " ++ show ext ++ ".")%string).
Proof.
  preserves_steps;
    first [apply print_keeps_fetches|apply extractall_keeps_fetches].
Qed.

(** With the archive in place no fetch is made. *)
Lemma download_keeps_fetches data_dir w :
  path_exists w (join data_dir "ml-1m.zip") = true →
  keeps_fetches w (download_and_extract_movielens_1m data_dir w).2.
Proof.
  intros Hzip. unfold download_and_extract_movielens_1m.
  rewrite run_bind. cbn [os_path_exists]. rewrite run_bind.
  pose proof (ensure_dir_grows data_dir (path_exists w data_dir) w) as Hg.
  pose proof (ensure_dir_keeps_files data_dir (path_exists w data_dir) w) as Hk.
  destruct ((if negb (path_exists w data_dir) then makedirs data_dir
             else mret ()) w) as [[[]|e] w1]; simpl in Hg, Hk;
    [|by apply keeps_files_fetches].
  rewrite run_bind. cbn [os_path_exists].
  rewrite (grows_path_exists w w1 _ Hg Hzip). cbn [negb].
  rewrite run_bind.
  pose proof (print_keeps_fetches
                ("Dataset already exists at "
                 ++ show (join data_dir "ml-1m.zip") ++ ".")%string w1) as Hp.
  destruct (print _ w1) as [[[]|e] w2]; simpl in Hp.
  - rewrite run_bind. cbn [os_path_exists].
    etrans; [by apply keeps_files_fetches|]. etrans; [exact Hp|].
    apply extract_block_keeps_fetches.
  - etrans; [by apply keeps_files_fetches|done].
Qed.

(** With the extraction directory in place nothing is extracted. *)
Lemma download_keeps_extractions data_dir w :
  path_exists w (join data_dir "ml-1m") = true →
  keeps_extractions w (download_and_extract_movielens_1m data_dir w).2.
Proof.
  intros Hext. unfold download_and_extract_movielens_1m.
  rewrite run_bind. cbn [os_path_exists]. rewrite run_bind.
  pose proof (ensure_dir_grows data_dir (path_exists w data_dir) w) as Hg.
  pose proof (ensure_dir_keeps_files data_dir (path_exists w data_dir) w) as Hk.
  destruct ((if negb (path_exists w data_dir) then makedirs data_dir
             else mret ()) w) as [[[]|e] w1]; simpl in Hg, Hk;
    [|by apply keeps_files_extractions].
  rewrite run_bind. cbn [os_path_exists]. rewrite run_bind.
  pose proof (fetch_block_grows (join data_dir "ml-1m.zip")
                (path_exists w1 (join data_dir "ml-1m.zip")) w1) as Hg2.
  pose proof (fetch_block_keeps_extractions (join data_dir "ml-1m.zip")
                (path_exists w1 (join data_dir "ml-1m.zip")) w1) as Hk2.
  match goal with
  | |- context [match ?m w1 with _ => _ end] =>
      destruct (m w1) as [[[]|e] w2]
  end; simpl in Hg2, Hk2.
  - rewrite run_bind. cbn [os_path_exists].
    rewrite (grows_path_exists w w2 (join data_dir "ml-1m"));
      [|by etrans|done].
    cbn [negb].
    etrans; [by apply keeps_files_extractions|]. etrans; [exact Hk2|].
    apply print_keeps_extractions.
  - etrans; [by apply keeps_files_extractions|done].
Qed.

(** After a call that returned normally the directory and the archive
    exist. *)
Lemma download_Ok_exists data_dir w0 w :
  download_and_extract_movielens_1m data_dir w0 = (Ok (), w) →
  path_exists w data_dir = true ∧
  path_exists w (join data_dir "ml-1m.zip") = true.
Proof.
  unfold download_and_extract_movielens_1m.
  intros (e0 & w0' & [= <- <-] & Hrun)%bind_Ok_inv.
  apply bind_Ok_inv in Hrun as ([] & w1 & Hdir & Hrun).
  apply bind_Ok_inv in Hrun as (e1 & w1' & [= <- <-] & Hrun).
  apply bind_Ok_inv in Hrun as ([] & w2 & Hfetch & Hrun).
  apply bind_Ok_inv in Hrun as (e2 & w2' & [= <- <-] & Hrun).
  assert (grows w2 w) as Hg2.
  { pose proof (extract_block_grows (join data_dir "ml-1m.zip") data_dir
                  (join data_dir "ml-1m")
                  (path_exists w2 (join data_dir "ml-1m")) w2) as Hg.
    by rewrite Hrun in Hg. }
  assert (grows w1 w2) as Hg1.
  { pose proof (fetch_block_grows (join data_dir "ml-1m.zip")
                  (path_exists w1 (join data_dir "ml-1m.zip")) w1) as Hg.
    by rewrite Hfetch in Hg. }
  split.
  - apply (grows_path_exists w1); [by etrans|].
    destruct (path_exists w0 data_dir) eqn:Hex; cbn [negb] in Hdir.
    + injection Hdir as <-. done.
    + apply makedirs_Ok_isdir in Hdir. unfold path_exists. by rewrite Hdir.
  - destruct (path_exists w1 (join data_dir "ml-1m.zip")) eqn:Hex;
      simpl in Hfetch.
    + apply (grows_path_exists w1); [by etrans|done].
    + apply (grows_path_exists w2); [done|].
      apply bind_Ok_inv in Hfetch as ([] & w1a & _ & Hfetch).
      apply bind_Ok_inv in Hfetch as ([] & w1b & Hurl & [= <-]).
      by apply urlretrieve_Ok_exists in Hurl.
Qed.

(** With directory, archive and extraction directory in place the call
    only prints its two messages. *)
Lemma download_noop data_dir w :
  path_exists w data_dir = true →
  path_exists w (join data_dir "ml-1m.zip") = true →
  path_exists w (join data_dir "ml-1m") = true →
  download_and_extract_movielens_1m data_dir w =
  (Ok (),
   with_trace
     (trace w ++
      [Printed ("Dataset already exists at "
                ++ show (join data_dir "ml-1m.zip") ++ ".")%string;
       Printed ("Extracted files already exist in "
                ++ show (join data_dir "ml-1m") ++ ".")%string]) w).
Proof.
  intros Hdir Hzip Hext. unfold download_and_extract_movielens_1m.
  rewrite run_bind. cbn [os_path_exists]. rewrite Hdir. cbn [negb].
  rewrite run_bind. cbn [mret M_ret]. rewrite run_bind.
  cbn [os_path_exists]. rewrite Hzip. cbn [negb].
  rewrite run_bind. cbn [print]. rewrite run_bind. cbn [os_path_exists].
  change (path_exists (with_trace ?t w) ?p) with (path_exists w p).
  rewrite Hext. cbn [negb]. unfold print, with_trace. cbn [trace dirs files net].
  by rewrite <- app_assoc.
Qed.

(** What a successful extraction leaves. *)

Lemma ensure_upperdirs_Ok upperdirs w w' :
  (if bool_decide (upperdirs ≠ []) && negb (path_exists w upperdirs)
   then makedirs upperdirs else mret ()) w = (Ok (), w') →
  path_exists w' upperdirs = true.
Proof.
  destruct (bool_decide (upperdirs ≠ [])) eqn:Hne; cbn [andb].
  - destruct (path_exists w upperdirs) eqn:Hex; cbn [negb].
    + by intros [= <-].
    + intros Hmk%makedirs_Ok_isdir. unfold path_exists. by rewrite Hmk.
  - intros [= <-]. apply bool_decide_eq_false in Hne.
    assert (upperdirs = []) as -> by (by destruct (decide (upperdirs = []))).
    unfold path_exists. by rewrite isdir_nil.
Qed.

Lemma extract_member_Ok_exists dest m w w' :
  extract_member dest m w = (Ok (), w') →
  path_exists w' (dest ++ m.1) = true ∧
  path_exists w' (dirname (dest ++ m.1)) = true.
Proof.
  unfold extract_member.
  intros (e & w0 & [= <- <-] & Hrun)%bind_Ok_inv.
  apply bind_Ok_inv in Hrun as ([] & w1 & Hupper & Hbody).
  apply ensure_upperdirs_Ok in Hupper.
  destruct m as [name [data|]]; cbn [fst snd] in *.
  - split; [by eapply write_file_Ok_exists|].
    apply (grows_path_exists w1); [|done].
    pose proof (write_file_grows (dest ++ name) (Text data) w1) as Hg.
    by rewrite Hbody in Hg.
  - apply bind_Ok_inv in Hbody as (d & w1' & [= <- <-] & Hbody).
    destruct (isdir w1 (dest ++ name)) eqn:Hd; cbn [negb] in Hbody.
    + injection Hbody as <-. unfold path_exists at 1. by rewrite Hd.
    + pose proof (mkdir_grows (dest ++ name) w1) as Hg. rewrite Hbody in Hg.
      apply mkdir_Ok in Hbody as ->. split.
      * unfold path_exists. apply orb_true_iff. left.
        apply isdir_true. right. simpl. set_solver.
      * by apply (grows_path_exists w1).
Qed.

Lemma extract_members_Ok_exists dest ms m w w' :
  extract_members dest ms w = (Ok (), w') → m ∈ ms →
  path_exists w' (dest ++ m.1) = true ∧
  path_exists w' (dirname (dest ++ m.1)) = true.
Proof.
  revert w. induction ms as [|m0 ms IH]; intros w Hrun Hm.
  { by apply elem_of_nil in Hm. }
  cbn [extract_members] in Hrun.
  apply bind_Ok_inv in Hrun as ([] & w1 & Hfirst & Hrest).
  apply elem_of_cons in Hm as [->|Hm]; [|by apply (IH w1)].
  apply extract_member_Ok_exists in Hfirst as [H1 H2].
  pose proof (extract_members_grows dest ms w1) as Hg. rewrite Hrest in Hg.
  split; by apply (grows_path_exists w1).
Qed.

Lemma under_stem_path data_dir m :
  under_stem m = true →
  data_dir ++ m.1 = join data_dir "ml-1m" ∨
  dirname (data_dir ++ m.1) = join data_dir "ml-1m".
Proof.
  unfold under_stem. rewrite andb_true_iff, bool_decide_eq_true, Nat.leb_le.
  destruct m as [[|a [|b [|c name]]] body]; cbn [fst take length];
    intros [Hstem Hlen]; [done| | |simpl in Hlen; lia].
  - left. by simplify_eq.
  - right. simplify_eq. unfold dirname, join.
    change ["ml-1m"; b] with (["ml-1m"] ++ [b]).
    rewrite app_assoc. apply removelast_last.
Qed.

Lemma extractall_Ok_stem archive dest ms w w' :
  extractall archive dest w = (Ok (), w') →
  files w !! archive = Some (ZipArchive ms) →
  existsb under_stem ms = true →
  path_exists w' (join dest "ml-1m") = true.
Proof.
  unfold extractall.
  intros (ms' & w0 & [-> Hfile']%ZipFile_Ok & Hrun)%bind_Ok_inv Hfile Hstem.
  assert (ms' = ms) as -> by congruence.
  apply bind_Ok_inv in Hrun as ([] & w1 & [= <-] & Hrun).
  apply existsb_exists in Hstem as (m & Hm%list_elem_of_In & Hstem).
  destruct (extract_members_Ok_exists _ _ m _ _ Hrun Hm) as [H1 H2].
  destruct (under_stem_path dest m Hstem) as [<-|<-]; done.
Qed.

Lemma urlretrieve_Ok u dest w w' :
  urlretrieve u dest w = (Ok (), w') →
  ∃ c, net w !! u = Some c ∧ files w' !! dest = Some c.
Proof.
  unfold urlretrieve. destruct (net w !! u) as [c|]; [|done].
  unfold write_file.
  repeat match goal with |- context [if ?b then _ else _] => destruct b end;
    intros [= <-].
  exists c. split; [done|]. simpl. by rewrite lookup_insert_eq.
Qed.

(** After a call that returned normally on an archive with an entry
    under [ml-1m], the extraction directory exists. *)
Lemma download_Ok_extracted data_dir w0 w ms :
  download_and_extract_movielens_1m data_dir w0 = (Ok (), w) →
  archive_in_use w0 data_dir = Some (ZipArchive ms) →
  existsb under_stem ms = true →
  path_exists w (join data_dir "ml-1m") = true.
Proof.
  unfold download_and_extract_movielens_1m. intros Hrun Harchive Hstem.
  apply bind_Ok_inv in Hrun as (e0 & w0' & [= <- <-] & Hrun).
  apply bind_Ok_inv in Hrun as ([] & w1 & Hdir & Hrun).
  apply bind_Ok_inv in Hrun as (e1 & w1' & [= <- <-] & Hrun).
  apply bind_Ok_inv in Hrun as ([] & w2 & Hfetch & Hrun).
  apply bind_Ok_inv in Hrun as (e2 & w2' & [= <- <-] & Hrun).
  destruct (path_exists w2 (join data_dir "ml-1m")) eqn:Hex; cbn [negb] in Hrun.
  { injection Hrun as <-. done. }
  apply bind_Ok_inv in Hrun as ([] & w2a & [= <-] & Hrun).
  apply bind_Ok_inv in Hrun as ([] & w3 & Hextract & [= <-]).
  change (path_exists (with_trace ?t w3) ?p) with (path_exists w3 p).
  apply (extractall_Ok_stem _ _ ms _ _ Hextract); [|done].
  cbn [files with_trace].
  pose proof (ensure_dir_keeps_files data_dir (path_exists w0 data_dir) w0)
    as (Hfiles1 & Hnet1 & _).
  rewrite Hdir in Hfiles1, Hnet1. cbn [snd] in Hfiles1, Hnet1.
  unfold archive_in_use in Harchive. rewrite <- Hfiles1, <- Hnet1 in Harchive.
  destruct (path_exists w1 (join data_dir "ml-1m.zip")) eqn:Hzip;
    cbn [negb] in Hfetch.
  - injection Hfetch as <-. cbn [files with_trace].
    destruct (files w1 !! join data_dir "ml-1m.zip") as [c|] eqn:Hc;
      [by simplify_eq|].
    exfalso. unfold extractall in Hextract.
    apply bind_Ok_inv in Hextract as (ms' & w4 & [_ Hfile]%ZipFile_Ok & _).
    cbn [files with_trace] in Hfile. congruence.
  - apply bind_Ok_inv in Hfetch as ([] & w1a & [= <-] & Hfetch).
    apply bind_Ok_inv in Hfetch as ([] & w1b & Hurl & [= <-]).
    apply urlretrieve_Ok in Hurl as (c & Hnet & Hfile).
    cbn [files net with_trace] in *. rewrite Hfile.
    assert (files w1 !! join data_dir "ml-1m.zip" = None) as Hnone.
    { unfold path_exists, isfile in Hzip.
      apply orb_false_iff in Hzip as [_ Hzip].
      apply bool_decide_eq_false in Hzip.
      by destruct (files w1 !! join data_dir "ml-1m.zip"); [destruct Hzip|]. }
    rewrite Hnone in Harchive. congruence.
Qed.

(** C5 (amended).  When the archive exists at [<data_dir>/ml-1m.zip] the
    call makes no fetch; when [<data_dir>/ml-1m] exists it extracts nothing;
    and a call made in the world left by a call that returned normally
    returns normally, makes no fetch, extracts nothing, and leaves the
    directories and files as they were, provided [<data_dir>/ml-1m]
    exists by then, as it does when the archive of the first call has an
    entry under [ml-1m] (every entry of the dataset's archive is). *)
Theorem acquisition_idempotent data_dir w :
  (path_exists w (join data_dir "ml-1m.zip") = true →
   fetches (trace (download_and_extract_movielens_1m data_dir w).2)
   = fetches (trace w)) ∧
  (path_exists w (join data_dir "ml-1m") = true →
   extractions (trace (download_and_extract_movielens_1m data_dir w).2)
   = extractions (trace w)) ∧
  (∀ w0,
     download_and_extract_movielens_1m data_dir w0 = (Ok (), w) →
     (path_exists w (join data_dir "ml-1m") = true ∨
      ∃ ms, archive_in_use w0 data_dir = Some (ZipArchive ms) ∧
            existsb under_stem ms = true) →
     ∃ w',
       download_and_extract_movielens_1m data_dir w = (Ok (), w') ∧
       dirs w' = dirs w ∧ files w' = files w ∧
       fetches (trace w') = fetches (trace w) ∧
       extractions (trace w') = extractions (trace w)).
Proof.
  split_and!.
  - apply download_keeps_fetches.
  - apply download_keeps_extractions.
  - intros w0 Hprior Hstem.
    destruct (download_Ok_exists data_dir w0 w Hprior) as [Hdir Hzip].
    assert (path_exists w (join data_dir "ml-1m") = true) as Hext.
    { destruct Hstem as [?|(ms & Harchive & Hstem)]; [done|].
      by apply (download_Ok_extracted data_dir w0 w ms). }
    pose proof (download_keeps_fetches data_dir w Hzip) as Hf.
    pose proof (download_keeps_extractions data_dir w Hext) as He.
    rewrite (download_noop data_dir w Hdir Hzip Hext) in *.
    eexists. split; [done|]. by split_and!.
Qed.

(** ** The acquisition and loader claims at sample inputs *)

(** The usage example of the module docstring. *)
Example mapping_tables_docstring :
  age_mapping !! 18 = Some "18-24" ∧
  occupation_mapping !! 7 = Some "executive/managerial".
Proof. split; reflexivity. Qed.

(** C5 as stated fails.  The URL serves a zip archive with no entry under
    [ml-1m]: the first call into "data" returns normally, having fetched
    and extracted the archive, but leaves no directory [data/ml-1m]; the
    second call returns normally too and extracts the archive again. *)
Lemma acquisition_idempotent_counterexample :
  download_and_extract_movielens_1m ["data"] foreign_world
    = (Ok (), foreign_acquired_world) ∧
  fetches (trace foreign_acquired_world) = 1%nat ∧
  extractions (trace foreign_acquired_world) = 1%nat ∧
  ∃ w',
    download_and_extract_movielens_1m ["data"] foreign_acquired_world
      = (Ok (), w') ∧
    fetches (trace w') = 1%nat ∧
    extractions (trace w') = 2%nat.
Proof.
  split; [vm_compute; reflexivity|].
  split; [vm_compute; reflexivity|].
  split; [vm_compute; reflexivity|].
  eexists. split; [vm_compute; reflexivity|].
  split; vm_compute; reflexivity.
Qed.

(** A second acquisition into "data", after the first one fetched and
    extracted the sample archive. *)
Lemma acquisition_idempotent_witness :
  fetches (trace (download_and_extract_movielens_1m ["data"] acquired_world).2)
    = fetches (trace acquired_world) ∧
  extractions
    (trace (download_and_extract_movielens_1m ["data"] acquired_world).2)
    = extractions (trace acquired_world) ∧
  ∃ w',
    download_and_extract_movielens_1m ["data"] acquired_world = (Ok (), w') ∧
    dirs w' = dirs acquired_world ∧ files w' = files acquired_world ∧
    fetches (trace w') = fetches (trace acquired_world) ∧
    extractions (trace w') = extractions (trace acquired_world).
Proof.
  destruct (acquisition_idempotent ["data"] acquired_world) as (H1 & H2 & H3).
  split; [apply H1; vm_compute; reflexivity|].
  split; [apply H2; vm_compute; reflexivity|].
  apply (H3 online_world); [vm_compute; reflexivity|].
  right. exists sample_members.
  split; vm_compute; reflexivity.
Defined.

(** The three loaders on the files the sample archive holds. *)
Lemma loaders_schema_witness :
  (∃ df, load_movielens_ratings ["data"] acquired_world = Some (Ok df) ∧
         column_names df = ["user_id"; "movie_id"; "rating"; "timestamp"] ∧
         nrows df = 2%nat ∧
         Forall (λ c, length c.2 = 2%nat) (columns df)) ∧
  (∃ df, load_movielens_users ["data"] acquired_world = Some (Ok df) ∧
         column_names df
           = ["user_id"; "gender"; "age"; "occupation"; "zip_code"] ∧
         nrows df = 2%nat ∧
         Forall (λ c, length c.2 = 2%nat) (columns df)) ∧
  (∃ df, load_movielens_movies ["data"] acquired_world = Some (Ok df) ∧
         column_names df = ["movie_id"; "title"; "genres"] ∧
         nrows df = 1%nat ∧
         Forall (λ c, length c.2 = 1%nat) (columns df)).
Proof.
  destruct (loaders_schema ["data"] acquired_world) as (H1 & H2 & H3).
  split; [|split].
  - apply (H1 sample_ratings); vm_compute; reflexivity.
  - apply (H2 sample_users); vm_compute; reflexivity.
  - apply (H3 sample_movies); vm_compute; reflexivity.
Defined.

(** * Further properties *)

(** ** Where a call can write *)

#[local] Instance adds_prefixes_preorder name : PreOrder (adds_prefixes name).
Proof.
  split.
  - intros w. split; [reflexivity|]. intros q Hq. by left.
  - intros w1 w2 w3 [Hk1 Hd1] [Hk2 Hd2]. split; [by etrans|].
    intros q Hq. destruct (Hd2 q Hq) as [Hq2|?]; [|by right]. by apply Hd1.
Qed.

#[local] Instance confined_preorder data_dir : PreOrder (confined data_dir).
Proof.
  split.
  - intros w. split; [done|]. split; [done|]. intros q Hq. by left.
  - intros w1 w2 w3 (Hn1 & Hf1 & Hd1) (Hn2 & Hf2 & Hd2).
    split; [congruence|]. split.
    + intros p Hp. rewrite Hf2 by done. by apply Hf1.
    + intros q Hq. destruct (Hd2 q Hq) as [Hq2|?]; [|by right].
      by apply Hd1.
Qed.

#[local] Instance keeps_file_at_preorder p : PreOrder (keeps_file_at p).
Proof.
  split; [by intros w|].
  intros w1 w2 w3 H1 H2. unfold keeps_file_at in *. congruence.
Qed.

Lemma mkdir_adds_prefixes p name :
  p `prefix_of` name → preserves (adds_prefixes name) (mkdir p).
Proof.
  intros Hp w. unfold mkdir.
  repeat match goal with |- context [if ?b then _ else _] => destruct b end;
    try reflexivity.
  split; [done|]. simpl.
  intros q [->%elem_of_singleton|Hq]%elem_of_union; [by right|by left].
Qed.

Lemma makedirs_rev_adds_prefixes rname name :
  rev rname `prefix_of` name →
  preserves (adds_prefixes name) (makedirs_rev rname).
Proof.
  induction rname as [|tail rhead IH]; intros Hpre; cbn [makedirs_rev].
  - by apply mkdir_adds_prefixes.
  - preserves_steps.
    + apply IH. etrans; [|exact Hpre]. cbn [rev]. by apply prefix_app_r.
    + by apply mkdir_adds_prefixes.
Qed.

Lemma makedirs_adds_prefixes name :
  preserves (adds_prefixes name) (makedirs name).
Proof. apply makedirs_rev_adds_prefixes. by rewrite rev_involutive. Qed.

Lemma ensure_dir_adds_prefixes data_dir (e : bool) :
  preserves (adds_prefixes data_dir)
    (if negb e then makedirs data_dir else mret ()).
Proof. preserves_steps. apply makedirs_adds_prefixes. Qed.

(** A path that is not on the way to [name] and does not exist still
    does not exist after the step. *)
Lemma adds_prefixes_absent name w w' p :
  adds_prefixes name w w' → ¬ p `prefix_of` name →
  path_exists w p = false → path_exists w' p = false.
Proof.
  intros [(Hf & _ & _) Hd] Hp. unfold path_exists, isfile, isdir.
  rewrite Hf, !orb_false_iff, !bool_decide_eq_false.
  intros [Hdir Hfile]. split; [|done].
  intros [?|Hq]; [tauto|]. destruct (Hd p Hq); tauto.
Qed.

Lemma not_prefix_join data_dir name : ¬ join data_dir name `prefix_of` data_dir.
Proof.
  intros Hpre%prefix_length. unfold join in Hpre.
  rewrite length_app in Hpre. simpl in Hpre. lia.
Qed.

Lemma adds_prefixes_confined name data_dir w w' :
  (∀ q, q `prefix_of` name →
        q `prefix_of` data_dir ∨ data_dir `prefix_of` q) →
  adds_prefixes name w w' → confined data_dir w w'.
Proof.
  intros Hname [(Hf & Hn & _) Hd]. split; [done|]. split.
  - intros p _. by rewrite Hf.
  - intros q Hq. destruct (Hd q Hq) as [?|?]; [by left|right]. by apply Hname.
Qed.

Lemma print_confined data_dir msg : preserves (confined data_dir) (print msg).
Proof. intros w. split; [done|]. split; [done|]. intros q Hq. by left. Qed.

Lemma write_file_confined data_dir p c :
  data_dir `prefix_of` p → preserves (confined data_dir) (write_file p c).
Proof.
  intros Hp w. unfold write_file.
  repeat match goal with |- context [if ?b then _ else _] => destruct b end;
    try reflexivity.
  split; [done|]. split; [|intros q Hq; by left].
  intros p' Hp'. simpl. apply lookup_insert_ne. by intros ->.
Qed.

Lemma makedirs_confined data_dir name :
  (∀ q, q `prefix_of` name →
        q `prefix_of` data_dir ∨ data_dir `prefix_of` q) →
  preserves (confined data_dir) (makedirs name).
Proof.
  intros Hname. eapply preserves_weaken; [|apply makedirs_adds_prefixes].
  intros w w'. by apply adds_prefixes_confined.
Qed.

Lemma mkdir_confined data_dir p :
  data_dir `prefix_of` p → preserves (confined data_dir) (mkdir p).
Proof.
  intros Hp. eapply preserves_weaken; [|by apply (mkdir_adds_prefixes p p)].
  intros w w'. apply adds_prefixes_confined.
  intros q Hq. by apply (prefix_weak_total _ _ p).
Qed.

Lemma urlretrieve_confined data_dir u dest :
  data_dir `prefix_of` dest → preserves (confined data_dir) (urlretrieve u dest).
Proof.
  intros Hdest w. unfold urlretrieve.
  destruct (net w !! u) as [c|];
    [|split; [done|]; split; [done|]; intros q Hq; by left].
  apply (write_file_confined data_dir dest c Hdest
           (with_trace (trace w ++ [UrlRetrieve u dest]) w)).
Qed.

Lemma extract_member_confined data_dir m :
  preserves (confined data_dir) (extract_member data_dir m).
Proof.
  assert (data_dir `prefix_of` data_dir ++ m.1) as Hpre by by apply prefix_app_r.
  unfold extract_member. destruct m as [name [data|]]; cbn [fst snd] in *;
    preserves_steps;
    first [ by apply write_file_confined
          | by apply mkdir_confined
          | apply makedirs_confined; intros q Hq;
            apply (prefix_weak_total _ _ (data_dir ++ name)); [|done];
            etrans; [exact Hq|]; unfold dirname;
            destruct (decide (data_dir ++ name = [])) as [->|Hne];
            [done|];
            destruct (exists_last Hne) as (l & x & ->);
            rewrite removelast_last; by apply prefix_app_r ].
Qed.

Lemma extract_members_confined data_dir ms :
  preserves (confined data_dir) (extract_members data_dir ms).
Proof.
  induction ms as [|m ms IH]; cbn [extract_members]; preserves_steps.
  apply extract_member_confined.
Qed.

Lemma extractall_confined data_dir archive :
  preserves (confined data_dir) (extractall archive data_dir).
Proof.
  unfold extractall.
  apply preserves_bind; [apply _|apply ZipFile_preserves; apply _|intros ms].
  apply preserves_bind; [apply _| |intros _].
  { intros w. split; [done|]. split; [done|]. intros q Hq. by left. }
  apply extract_members_confined.
Qed.

Lemma download_confined data_dir :
  preserves (confined data_dir) (download_and_extract_movielens_1m data_dir).
Proof.
  assert (data_dir `prefix_of` join data_dir "ml-1m.zip")
    by by apply prefix_app_r.
  unfold download_and_extract_movielens_1m. preserves_steps;
    first [ apply print_confined
          | by apply urlretrieve_confined
          | apply extractall_confined
          | apply makedirs_confined; intros q Hq; by left ].
Qed.

Lemma download_grows data_dir :
  preserves grows (download_and_extract_movielens_1m data_dir).
Proof.
  unfold download_and_extract_movielens_1m. preserves_steps;
    first [ apply print_grows | apply urlretrieve_grows
          | apply extractall_grows | apply makedirs_grows ].
Qed.

(** X1.  Whatever it returns, a call of
    [download_and_extract_movielens_1m] removes nothing (every directory
    and every file path that existed still exists), leaves every file
    outside [data_dir] exactly as it was, and creates directories only
    on the way to [data_dir] or under it. *)
Theorem acquisition_confined data_dir w :
  dirs w ⊆ dirs (download_and_extract_movielens_1m data_dir w).2 ∧
  dom (files w) ⊆ dom (files (download_and_extract_movielens_1m data_dir w).2) ∧
  (∀ p, ¬ data_dir `prefix_of` p →
        files (download_and_extract_movielens_1m data_dir w).2 !! p
        = files w !! p) ∧
  (∀ q, q ∈ dirs (download_and_extract_movielens_1m data_dir w).2 →
        q ∈ dirs w ∨ q `prefix_of` data_dir ∨ data_dir `prefix_of` q).
Proof.
  destruct (download_grows data_dir w) as [Hd Hf].
  destruct (download_confined data_dir w) as (_ & Hout & Hnew).
  done.
Qed.

(** ** Counting fetches and extractions *)

#[local] Instance keeps_trace_preorder : PreOrder keeps_trace.
Proof.
  split; [by intros w|].
  intros w1 w2 w3 H1 H2. unfold keeps_trace in *. congruence.
Qed.

Lemma keeps_files_trace w w' : keeps_files w w' → keeps_trace w w'.
Proof. by intros (_ & _ & Ht). Qed.

Lemma write_file_keeps_trace p c : preserves keeps_trace (write_file p c).
Proof. unfold write_file. primitive_cases; done. Qed.

Lemma extract_member_keeps_trace dest m :
  preserves keeps_trace (extract_member dest m).
Proof.
  unfold extract_member. destruct m as [name [data|]]; cbn [fst snd];
    preserves_steps;
    first [ apply write_file_keeps_trace
          | eapply preserves_weaken;
            [apply keeps_files_trace|apply makedirs_keeps_files]
          | eapply preserves_weaken;
            [apply keeps_files_trace|apply mkdir_keeps_files] ].
Qed.

Lemma extract_members_keeps_trace dest ms :
  preserves keeps_trace (extract_members dest ms).
Proof.
  induction ms as [|m ms IH]; cbn [extract_members]; preserves_steps.
  apply extract_member_keeps_trace.
Qed.

(** [extractall] records one extraction when the archive is a zip
    archive, whatever the extraction then returns, and none when the
    archive cannot be opened. *)
Lemma extractall_trace archive dest ms w :
  files w !! archive = Some (ZipArchive ms) →
  trace (extractall archive dest w).2 = trace w ++ [ExtractAll archive dest].
Proof.
  intros Hfile. unfold extractall, ZipFile, read_file.
  rewrite !run_bind, Hfile. cbn [mret M_ret]. rewrite run_bind.
  apply (extract_members_keeps_trace dest ms
           (with_trace (trace w ++ [ExtractAll archive dest]) w)).
Qed.

Lemma extractall_BadZipFile archive dest c w :
  files w !! archive = Some c →
  (∀ ms, c ≠ ZipArchive ms) →
  extractall archive dest w = (Raise BadZipFile, w).
Proof.
  intros Hfile Hbad. unfold extractall, ZipFile, read_file.
  rewrite !run_bind, Hfile.
  by destruct c as [s|ms|h r]; [|destruct (Hbad ms)|].
Qed.

(** [urlretrieve] records one fetch, whatever it returns; when it
    returns normally it has written what the URL serves, and only that. *)
Lemma urlretrieve_trace u dest w :
  trace (urlretrieve u dest w).2 = trace w ++ [UrlRetrieve u dest].
Proof.
  unfold urlretrieve. destruct (net w !! u) as [c|]; [|done].
  apply (write_file_keeps_trace dest c
           (with_trace (trace w ++ [UrlRetrieve u dest]) w)).
Qed.

Lemma urlretrieve_Ok_world u dest w w' :
  urlretrieve u dest w = (Ok (), w') →
  ∃ c, net w !! u = Some c ∧ dirs w' = dirs w ∧
       files w' = <[dest := c]> (files w).
Proof.
  unfold urlretrieve. destruct (net w !! u) as [c|]; [|done].
  unfold write_file.
  repeat match goal with |- context [if ?b then _ else _] => destruct b end;
    intros [= <-].
  by exists c.
Qed.

Lemma absent_not_file w p : path_exists w p = false → files w !! p = None.
Proof.
  unfold path_exists, isfile. intros [_ Hf]%orb_false_iff.
  apply bool_decide_eq_false in Hf.
  destruct (files w !! p); [by destruct Hf|done].
Qed.

Lemma ensure_dir_creatable data_dir w :
  creatable w data_dir = true →
  ∃ w1, (if negb (path_exists w data_dir) then makedirs data_dir
         else mret ()) w = (Ok (), w1) ∧
        adds_prefixes data_dir w w1 ∧ isdir w1 data_dir = true.
Proof.
  intros Hc. unfold creatable in Hc. rewrite forallb_forall in Hc.
  assert (∀ q, q `prefix_of` data_dir → isfile w q = false) as Hfiles.
  { intros q Hq. apply negb_true_iff, Hc, list_elem_of_In.
    by apply elem_of_prefixes. }
  destruct (path_exists w data_dir) eqn:Hex; cbn [negb].
  - exists w. split; [done|]. split; [reflexivity|].
    unfold path_exists in Hex. rewrite (Hfiles data_dir) in Hex by done.
    by rewrite orb_false_r in Hex.
  - destruct (makedirs_rev_Ok (rev data_dir) w)
      as (w1 & Hrun & Hkeep & Hd & Hdirs & _);
      rewrite ?rev_involutive; [done..|].
    rewrite rev_involutive in *. by exists w1.
Qed.

(** A first call that returns normally, made where neither the archive
    nor the extraction directory exists: it fetched what the URL serves
    into the archive file, then extracted that file in a world [w2], and
    finished with a message. *)
Lemma download_first_inv data_dir w0 w :
  download_and_extract_movielens_1m data_dir w0 = (Ok (), w) →
  path_exists w0 (join data_dir "ml-1m.zip") = false →
  path_exists w0 (join data_dir "ml-1m") = false →
  ∃ c w2 w3,
    net w0 !! url = Some c ∧
    files w2 !! join data_dir "ml-1m.zip" = Some c ∧
    fetches (trace w2) = (fetches (trace w0) + 1)%nat ∧
    extractions (trace w2) = extractions (trace w0) ∧
    extractall (join data_dir "ml-1m.zip") data_dir w2 = (Ok (), w3) ∧
    dirs w = dirs w3 ∧ files w = files w3 ∧
    fetches (trace w) = fetches (trace w3) ∧
    extractions (trace w) = extractions (trace w3).
Proof.
  unfold download_and_extract_movielens_1m. intros Hrun Hzip Hext.
  apply bind_Ok_inv in Hrun as (e0 & w0' & [= <- <-] & Hrun).
  apply bind_Ok_inv in Hrun as ([] & w1 & Hdir & Hrun).
  apply bind_Ok_inv in Hrun as (e1 & w1' & [= <- <-] & Hrun).
  apply bind_Ok_inv in Hrun as ([] & w2 & Hfetch & Hrun).
  apply bind_Ok_inv in Hrun as (e2 & w2' & [= <- <-] & Hrun).
  pose proof (ensure_dir_adds_prefixes data_dir (path_exists w0 data_dir) w0)
    as Hadds.
  rewrite Hdir in Hadds. cbn [snd] in Hadds.
  pose proof (adds_prefixes_absent _ _ _ _ Hadds (not_prefix_join _ _) Hzip)
    as Hzip1.
  pose proof (adds_prefixes_absent _ _ _ _ Hadds (not_prefix_join _ _) Hext)
    as Hext1.
  destruct Hadds as [(_ & Hnet1 & Htrace1) _].
  rewrite Hzip1 in Hfetch. cbn [negb] in Hfetch.
  apply bind_Ok_inv in Hfetch as ([] & w1a & [= <-] & Hfetch).
  apply bind_Ok_inv in Hfetch as ([] & w1b & Hurl & [= <-]).
  pose proof (urlretrieve_trace url (join data_dir "ml-1m.zip")
                (with_trace
                   (trace w1 ++
                    [Printed ("Downloading MovieLens 1M dataset to "
                              ++ show (join data_dir "ml-1m.zip")
                              ++ "...")%string]) w1)) as Htrace2.
  rewrite Hurl in Htrace2. cbn [snd trace with_trace] in Htrace2.
  apply urlretrieve_Ok_world in Hurl as (c & Hnet & Hdirs2 & Hfiles2).
  cbn [dirs files net with_trace] in Hnet, Hdirs2, Hfiles2.
  assert (path_exists
            (with_trace (trace w1b ++ [Printed "Download completed!"]) w1b)
            (join data_dir "ml-1m") = false) as Hext2.
  { unfold path_exists, isdir, isfile in *. cbn [dirs files with_trace].
    rewrite Hdirs2, Hfiles2.
    rewrite lookup_insert_ne by (intros ?%join_inj; done). done. }
  rewrite Hext2 in Hrun. cbn [negb] in Hrun.
  apply bind_Ok_inv in Hrun as ([] & w2a & [= <-] & Hrun).
  apply bind_Ok_inv in Hrun as ([] & w3 & Hextract & [= <-]).
  eexists c, _, w3. split; [congruence|]. split_and!; [| | |exact Hextract|..];
    cbn [dirs files trace with_trace]; try done.
  - by rewrite Hfiles2, lookup_insert_eq.
  - rewrite Htrace2, Htrace1. rewrite !fetches_snoc. cbn [is_fetch]. lia.
  - rewrite Htrace2, Htrace1. rewrite !extractions_snoc.
    cbn [is_extraction]. lia.
  - by rewrite fetches_snoc, Nat.add_0_r.
  - by rewrite extractions_snoc, Nat.add_0_r.
Qed.

Lemma download_first_counts data_dir w0 w :
  download_and_extract_movielens_1m data_dir w0 = (Ok (), w) →
  path_exists w0 (join data_dir "ml-1m.zip") = false →
  path_exists w0 (join data_dir "ml-1m") = false →
  fetches (trace w) = (fetches (trace w0) + 1)%nat ∧
  extractions (trace w) = (extractions (trace w0) + 1)%nat.
Proof.
  intros Hrun Hzip Hext.
  destruct (download_first_inv data_dir w0 w Hrun Hzip Hext)
    as (c & w2 & w3 & _ & _ & Hf2 & He2 & Hextract & _ & _ & Hf & He).
  assert (∃ ms, files w2 !! join data_dir "ml-1m.zip" = Some (ZipArchive ms))
    as [ms Hfile].
  { unfold extractall in Hextract.
    apply bind_Ok_inv in Hextract as (ms & w' & [_ Hfile]%ZipFile_Ok & _).
    by exists ms. }
  pose proof (extractall_trace (join data_dir "ml-1m.zip") data_dir ms w2 Hfile)
    as Htrace.
  pose proof (extractall_keeps_fetches (join data_dir "ml-1m.zip") data_dir w2)
    as Hkeep.
  rewrite Hextract in Htrace, Hkeep. cbn [snd] in Htrace, Hkeep.
  unfold keeps_fetches in Hkeep. split; [congruence|].
  rewrite He, Htrace, extractions_snoc. cbn [is_extraction]. lia.
Qed.

(** X2.  Two calls in a row with the same directory, the first made
    where neither the archive nor the extraction directory exists and
    the URL serves an archive with an entry under [ml-1m]: if the first
    returns normally then so does the second, and together they make
    exactly one fetch and one extraction; the second leaves directories
    and files as the first left them. *)
Theorem acquisition_two_calls data_dir w0 w1 ms :
  path_exists w0 (join data_dir "ml-1m.zip") = false →
  path_exists w0 (join data_dir "ml-1m") = false →
  net w0 !! url = Some (ZipArchive ms) →
  existsb under_stem ms = true →
  download_and_extract_movielens_1m data_dir w0 = (Ok (), w1) →
  ∃ w2,
    download_and_extract_movielens_1m data_dir w1 = (Ok (), w2) ∧
    fetches (trace w2) = (fetches (trace w0) + 1)%nat ∧
    extractions (trace w2) = (extractions (trace w0) + 1)%nat ∧
    dirs w2 = dirs w1 ∧ files w2 = files w1.
Proof.
  intros Hzip Hext Hnet Hstem Hfirst.
  destruct (download_first_counts data_dir w0 w1 Hfirst Hzip Hext)
    as [Hfetches Hextractions].
  destruct (download_Ok_exists data_dir w0 w1 Hfirst) as [Hdir1 Hzip1].
  assert (path_exists w1 (join data_dir "ml-1m") = true) as Hext1.
  { apply (download_Ok_extracted data_dir w0 w1 ms Hfirst); [|done].
    unfold archive_in_use. by rewrite (absent_not_file _ _ Hzip). }
  rewrite (download_noop data_dir w1 Hdir1 Hzip1 Hext1).
  eexists. split; [done|]. cbn [trace dirs files with_trace].
  split_and!; [| |done..].
  - rewrite <- Hfetches. unfold fetches. by rewrite filter_app, length_app.
  - rewrite <- Hextractions. unfold extractions.
    by rewrite filter_app, length_app.
Qed.

(** X3.  When the archive is not there and the URL cannot be fetched,
    the call raises URLError after creating the directory: one fetch
    was attempted, nothing was extracted, and no file was written. *)
Theorem acquisition_offline data_dir w :
  creatable w data_dir = true →
  path_exists w (join data_dir "ml-1m.zip") = false →
  net w !! url = None →
  ∃ w',
    download_and_extract_movielens_1m data_dir w = (Raise URLError, w') ∧
    isdir w' data_dir = true ∧
    files w' = files w ∧
    fetches (trace w') = (fetches (trace w) + 1)%nat ∧
    extractions (trace w') = extractions (trace w).
Proof.
  intros Hc Hzip Hnet.
  destruct (ensure_dir_creatable data_dir w Hc) as (w1 & Hdir & Hadds & Hd).
  pose proof (adds_prefixes_absent _ _ _ _ Hadds (not_prefix_join _ _) Hzip)
    as Hzip1.
  destruct Hadds as [(Hfiles & Hnet1 & Htrace) _].
  unfold download_and_extract_movielens_1m.
  rewrite run_bind. cbn [os_path_exists]. rewrite run_bind, Hdir.
  rewrite run_bind. cbn [os_path_exists]. rewrite Hzip1. cbn [negb].
  rewrite run_bind, run_bind. cbn [print]. rewrite run_bind.
  unfold urlretrieve. cbn [net with_trace]. rewrite Hnet1, Hnet.
  eexists. split; [done|]. cbn [dirs files trace with_trace].
  split; [done|]. split; [done|]. rewrite Htrace.
  rewrite !fetches_snoc, !extractions_snoc. cbn [is_fetch is_extraction].
  lia.
Qed.

(** X4.  When the archive file exists but is not a zip archive (a
    download cut short, say) and the extraction directory does not
    exist, the call fetches nothing and extracts nothing: opening the
    archive raises BadZipFile before [extractall] is called, and the
    directories and files are left as they were. *)
Theorem acquisition_corrupt_archive data_dir w c :
  path_exists w data_dir = true →
  files w !! join data_dir "ml-1m.zip" = Some c →
  (∀ ms, c ≠ ZipArchive ms) →
  path_exists w (join data_dir "ml-1m") = false →
  ∃ w',
    download_and_extract_movielens_1m data_dir w = (Raise BadZipFile, w') ∧
    dirs w' = dirs w ∧ files w' = files w ∧
    fetches (trace w') = fetches (trace w) ∧
    extractions (trace w') = extractions (trace w).
Proof.
  intros Hdir Hfile Hbad Hext.
  assert (path_exists w (join data_dir "ml-1m.zip") = true) as Hzip.
  { unfold path_exists, isfile. rewrite Hfile. apply orb_true_iff. right.
    by apply bool_decide_eq_true. }
  unfold download_and_extract_movielens_1m.
  rewrite run_bind. cbn [os_path_exists]. rewrite Hdir. cbn [negb].
  rewrite run_bind. cbn [mret M_ret]. rewrite run_bind.
  cbn [os_path_exists]. rewrite Hzip. cbn [negb].
  rewrite run_bind. cbn [print]. rewrite run_bind. cbn [os_path_exists].
  change (path_exists (with_trace ?t w) ?p) with (path_exists w p).
  rewrite Hext. cbn [negb]. rewrite run_bind. cbn [print]. rewrite run_bind.
  rewrite (extractall_BadZipFile _ _ c) by done.
  eexists. split; [done|]. cbn [dirs files trace with_trace].
  split; [done|]. split; [done|].
  rewrite !fetches_snoc, !extractions_snoc. cbn [is_fetch is_extraction].
  lia.
Qed.

Lemma acquisition_two_calls_witness :
  ∃ w2,
    download_and_extract_movielens_1m ["data"] acquired_world = (Ok (), w2) ∧
    fetches (trace w2) = (fetches (trace online_world) + 1)%nat ∧
    extractions (trace w2) = (extractions (trace online_world) + 1)%nat ∧
    dirs w2 = dirs acquired_world ∧ files w2 = files acquired_world.
Proof.
  apply (acquisition_two_calls ["data"] online_world acquired_world
           sample_members); vm_compute; reflexivity.
Defined.

Lemma acquisition_offline_witness :
  ∃ w',
    download_and_extract_movielens_1m ["data"] empty_world
      = (Raise URLError, w') ∧
    isdir w' ["data"] = true ∧
    files w' = files empty_world ∧
    fetches (trace w') = (fetches (trace empty_world) + 1)%nat ∧
    extractions (trace w') = extractions (trace empty_world).
Proof.
  apply (acquisition_offline ["data"] empty_world); vm_compute; reflexivity.
Defined.

Lemma acquisition_corrupt_archive_witness :
  ∃ w',
    download_and_extract_movielens_1m ["data"] interrupted_world
      = (Raise BadZipFile, w') ∧
    dirs w' = dirs interrupted_world ∧ files w' = files interrupted_world ∧
    fetches (trace w') = fetches (trace interrupted_world) ∧
    extractions (trace w') = extractions (trace interrupted_world).
Proof.
  apply (acquisition_corrupt_archive ["data"] interrupted_world (Text "PK"));
    [vm_compute; reflexivity|vm_compute; reflexivity|discriminate
    |vm_compute; reflexivity].
Defined.

(** ** What extraction leaves for the loaders *)

Lemma keeps_files_file_at p w w' : keeps_files w w' → keeps_file_at p w w'.
Proof. intros (Hf & _ & _). unfold keeps_file_at. by rewrite Hf. Qed.

Lemma write_file_keeps_file_at p q c :
  q ≠ p → preserves (keeps_file_at p) (write_file q c).
Proof.
  intros Hne w. unfold write_file, keeps_file_at.
  repeat match goal with |- context [if ?b then _ else _] => destruct b end;
    try done.
  simpl. by apply lookup_insert_ne.
Qed.

Lemma write_file_Ok_lookup p c w w' :
  write_file p c w = (Ok (), w') → files w' !! p = Some c.
Proof.
  unfold write_file.
  repeat match goal with |- context [if ?b then _ else _] => destruct b end;
    intros [= <-].
  simpl. by rewrite lookup_insert_eq.
Qed.

Lemma extract_member_keeps_file_at dest m p :
  dest ++ m.1 ≠ p → preserves (keeps_file_at p) (extract_member dest m).
Proof.
  intros Hne. unfold extract_member.
  destruct m as [name [data|]]; cbn [fst snd] in *; preserves_steps;
    first [ by apply write_file_keeps_file_at
          | eapply preserves_weaken;
            [apply keeps_files_file_at|apply makedirs_keeps_files]
          | eapply preserves_weaken;
            [apply keeps_files_file_at|apply mkdir_keeps_files] ].
Qed.

Lemma extract_members_keeps_file_at dest ms p :
  Forall (λ m, dest ++ m.1 ≠ p) ms →
  preserves (keeps_file_at p) (extract_members dest ms).
Proof.
  induction 1 as [|m ms Hm _ IH]; cbn [extract_members]; preserves_steps.
  by apply extract_member_keeps_file_at.
Qed.

Lemma extract_member_Ok_file dest name data w w' :
  extract_member dest (name, Some data) w = (Ok (), w') →
  files w' !! (dest ++ name) = Some (Text data).
Proof.
  unfold extract_member. cbn [fst snd].
  intros (e & w0 & _ & Hrun)%bind_Ok_inv.
  apply bind_Ok_inv in Hrun as ([] & w1 & _ & Hwrite).
  by apply write_file_Ok_lookup in Hwrite.
Qed.

(** After a successful extraction of members with distinct names, each
    file member is at its place with its data. *)
Lemma extract_members_Ok_file dest ms name data w w' :
  extract_members dest ms w = (Ok (), w') →
  NoDup ms.*1 → (name, Some data) ∈ ms →
  files w' !! (dest ++ name) = Some (Text data).
Proof.
  revert w. induction ms as [|m ms IH]; intros w Hrun Hnd Hin.
  { by apply elem_of_nil in Hin. }
  cbn [extract_members] in Hrun.
  apply bind_Ok_inv in Hrun as ([] & w1 & Hfirst & Hrest).
  rewrite fmap_cons in Hnd. apply NoDup_cons in Hnd as [Hfresh Hnd].
  apply elem_of_cons in Hin as [Heq|Hin]; [subst m|by apply (IH w1)].
  apply extract_member_Ok_file in Hfirst. cbn [fst] in Hfresh.
  assert (Forall (λ m, dest ++ m.1 ≠ dest ++ name) ms) as Hall.
  { apply Forall_forall. intros m Hm Heq%app_inv_head.
    apply Hfresh. rewrite <- Heq. apply list_elem_of_fmap. by exists m. }
  pose proof (extract_members_keeps_file_at dest ms (dest ++ name) Hall w1)
    as Hkeep.
  rewrite Hrest in Hkeep. unfold keeps_file_at in Hkeep. cbn [snd] in Hkeep.
  etrans; [exact Hkeep|exact Hfirst].
Qed.

Lemma extractall_Ok_file archive dest ms name data w w' :
  extractall archive dest w = (Ok (), w') →
  files w !! archive = Some (ZipArchive ms) →
  NoDup ms.*1 → (name, Some data) ∈ ms →
  files w' !! (dest ++ name) = Some (Text data).
Proof.
  unfold extractall.
  intros (ms' & w0 & [-> Hfile']%ZipFile_Ok & Hrun)%bind_Ok_inv Hfile Hnd Hin.
  assert (ms' = ms) as -> by congruence.
  apply bind_Ok_inv in Hrun as ([] & w1 & [= <-] & Hrun).
  by eapply extract_members_Ok_file.
Qed.

Lemma loader_path data_dir name :
  join (join data_dir "ml-1m") name = data_dir ++ ["ml-1m"; name].
Proof. unfold join. by rewrite <- app_assoc. Qed.

(** After a first acquisition, the member [ml-1m/<name>] of the archive
    is the file [<data_dir>/ml-1m/<name>]. *)
Lemma download_first_file data_dir w0 w ms name data :
  download_and_extract_movielens_1m data_dir w0 = (Ok (), w) →
  path_exists w0 (join data_dir "ml-1m.zip") = false →
  path_exists w0 (join data_dir "ml-1m") = false →
  net w0 !! url = Some (ZipArchive ms) →
  NoDup ms.*1 → (["ml-1m"; name], Some data) ∈ ms →
  files w !! join (join data_dir "ml-1m") name = Some (Text data).
Proof.
  intros Hrun Hzip Hext Hnet Hnd Hin.
  destruct (download_first_inv data_dir w0 w Hrun Hzip Hext)
    as (c & w2 & w3 & Hc & Hfile & _ & _ & Hextract & _ & Hfiles & _).
  rewrite Hnet in Hc. injection Hc as <-.
  rewrite Hfiles, loader_path. by eapply extractall_Ok_file.
Qed.

(** X5.  Acquisition followed by loading.  After a first acquisition
    that returned normally (neither archive nor extraction directory
    existed; the URL serves a zip archive whose members have distinct
    names), each loader reads the member of the archive with its file
    name: when that member is well formed with N lines the loader
    returns a frame of N rows with its column names. *)
Theorem acquire_then_load data_dir w0 w ms :
  path_exists w0 (join data_dir "ml-1m.zip") = false →
  path_exists w0 (join data_dir "ml-1m") = false →
  net w0 !! url = Some (ZipArchive ms) →
  NoDup ms.*1 →
  download_and_extract_movielens_1m data_dir w0 = (Ok (), w) →
  (∀ s, (["ml-1m"; "ratings.dat"], Some s) ∈ ms →
        well_formed_file 4 s = true →
        ∃ df, load_movielens_ratings data_dir w = Some (Ok df) ∧
              column_names df = ratings_columns ∧
              nrows df = length (readlines s)) ∧
  (∀ s, (["ml-1m"; "users.dat"], Some s) ∈ ms →
        well_formed_file 5 s = true →
        ∃ df, load_movielens_users data_dir w = Some (Ok df) ∧
              column_names df = users_columns ∧
              nrows df = length (readlines s)) ∧
  (∀ s, (["ml-1m"; "movies.dat"], Some s) ∈ ms →
        well_formed_file 3 s = true →
        ∃ df, load_movielens_movies data_dir w = Some (Ok df) ∧
              column_names df = movies_columns ∧
              nrows df = length (readlines s)).
Proof.
  intros Hzip Hext Hnet Hnd Hrun.
  split_and!; intros s Hin Hwf;
    pose proof (download_first_file data_dir w0 w ms _ s
                  Hrun Hzip Hext Hnet Hnd Hin) as Hfile.
  - destruct (read_csv_well_formed _ ratings_columns s w Hfile)
      as (df & ? & ? & ? & _); [simpl; lia|done|]. by exists df.
  - destruct (read_csv_well_formed _ users_columns s w Hfile)
      as (df & ? & ? & ? & _); [simpl; lia|done|]. by exists df.
  - destruct (read_csv_well_formed _ movies_columns s w Hfile)
      as (df & ? & ? & ? & _); [simpl; lia|done|]. by exists df.
Qed.

Lemma acquire_then_load_witness :
  (∃ df, load_movielens_ratings ["data"] acquired_world = Some (Ok df) ∧
         column_names df = ratings_columns ∧ nrows df = 2%nat) ∧
  (∃ df, load_movielens_users ["data"] acquired_world = Some (Ok df) ∧
         column_names df = users_columns ∧ nrows df = 2%nat) ∧
  (∃ df, load_movielens_movies ["data"] acquired_world = Some (Ok df) ∧
         column_names df = movies_columns ∧ nrows df = 1%nat).
Proof.
  destruct (acquire_then_load ["data"] online_world acquired_world
              sample_members) as (H1 & H2 & H3);
    [vm_compute; reflexivity..|apply (bool_decide_unpack _); vm_compute; exact I
    |vm_compute; reflexivity|].
  split; [|split].
  - apply (H1 sample_ratings); [|vm_compute; reflexivity].
    apply (bool_decide_unpack _). vm_compute. exact I.
  - apply (H2 sample_users); [|vm_compute; reflexivity].
    apply (bool_decide_unpack _). vm_compute. exact I.
  - apply (H3 sample_movies); [|vm_compute; reflexivity].
    apply (bool_decide_unpack _). vm_compute. exact I.
Defined.

(** ** Blank, short and long lines *)

Lemma frame_of_rows_short (names : list string) (rows : list (list string)) :
  Forall (λ row, (length row ≤ length names)%nat) rows →
  ∃ df, frame_of_rows names rows = Ok df ∧
        nrows df = length rows ∧
        Forall (λ c, length c.2 = length rows) (columns df).
Proof.
  intros Hrows. unfold frame_of_rows.
  assert (match rows with
          | first :: _ => (length first - length names)%nat
          | [] => 0%nat
          end = 0%nat) as ->.
  { destruct Hrows as [|first rest Hfirst _]; [done|]. lia. }
  assert (forallb (λ row, (length row <=? length names + 0)%nat) rows = true)
    as ->.
  { apply forallb_forall. intros row Hrow%list_elem_of_In.
    rewrite Forall_forall in Hrows. apply Nat.leb_le.
    specialize (Hrows row Hrow). lia. }
  eexists. split; [done|]. unfold nrows. simpl. split.
  - by rewrite length_fmap, length_seq.
  - apply Forall_fmap, Forall_forall. intros jn _. simpl.
    by rewrite length_fmap.
Qed.

(** A row is blank exactly when its line is, for lines that are blank
    or have two fields or more. *)
Lemma is_blank_row_line line :
  strip line = "" ∨ (2 ≤ length (split_fields (strip line)))%nat →
  is_blank_row (split_fields (strip line)) = bool_decide (strip line = "").
Proof.
  intros [Hblank|Hfields].
  - rewrite Hblank. by vm_compute.
  - destruct (split_fields (strip line)) as [|f [|g row]] eqn:Hsplit;
      simpl in Hfields; [lia|lia|].
    simpl. symmetry. apply bool_decide_eq_false. intros Hblank.
    rewrite Hblank in Hsplit. by vm_compute in Hsplit.
Qed.

Lemma tolerable_file_rows k s :
  tolerable_file k s = true →
  data_rows s = (λ line, split_fields (strip line)) <$> nonblank_lines s ∧
  Forall (λ row, (length row ≤ k)%nat) (data_rows s).
Proof.
  unfold tolerable_file, data_rows, raw_rows, nonblank_lines.
  destruct (readlines s) as [|line0 lines0] eqn:Hlines.
  { intros _. split; [done|]. vm_compute. constructor. }
  generalize (line0 :: lines0). clear. intros lines Htol.
  rewrite forallb_forall in Htol.
  induction lines as [|line lines IH]; [by split|].
  destruct IH as [IH1 IH2].
  { intros l Hl. apply Htol. by right. }
  specialize (Htol line (or_introl eq_refl)). cbv zeta in Htol.
  rewrite fmap_cons.
  assert (strip line = ""
          ∨ (2 ≤ length (split_fields (strip line)) ≤ k)%nat) as Hline.
  { apply orb_true_iff in Htol as [Hb|Hn].
    - left. by apply bool_decide_eq_true in Hb.
    - right. apply andb_true_iff in Hn as [H2 Hk].
      apply Nat.leb_le in H2, Hk. lia. }
  pose proof (is_blank_row_line line) as Hrow.
  destruct (decide (strip line = "")) as [Hblank|Hnon].
  - rewrite filter_cons_False
      by (rewrite Hrow by (by left); rewrite bool_decide_eq_true_2 by done;
          done).
    rewrite (filter_cons_False (λ l, strip l ≠ "")) by tauto. done.
  - destruct Hline as [?|Hline]; [done|].
    rewrite filter_cons_True
      by (rewrite Hrow by (right; lia); by apply bool_decide_eq_false).
    rewrite (filter_cons_True (λ l, strip l ≠ "")) by done.
    rewrite fmap_cons, IH1. split; [done|].
    constructor; [lia|]. by rewrite <- IH1.
Qed.

Lemma read_csv_tolerable p names s w :
  files w !! p = Some (Text s) →
  tolerable_file (length names) s = true →
  ∃ df, read_csv p names w = Some (Ok df) ∧
        column_names df = names ∧
        nrows df = length (nonblank_lines s) ∧
        Forall (λ c, length c.2 = length (nonblank_lines s)) (columns df).
Proof.
  intros Hfile Htol.
  destruct (tolerable_file_rows _ s Htol) as [Hrows Hall].
  destruct (frame_of_rows_short names (data_rows s) Hall)
    as (df & Hdf & Hn & Hcols).
  exists df. split.
  - unfold read_csv, read_file. rewrite Hfile. simpl.
    unfold parse_csv. by rewrite Hdf.
  - split; [by eapply column_names_frame_of_rows|].
    rewrite Hrows, length_fmap in Hn, Hcols. done.
Qed.

(** X6.  Blank lines are skipped and short lines are accepted.  When
    every line of the file a loader reads is blank or has, once
    stripped, at least two fields and no more than the loader has column
    names, the loader returns its frame with one row per line that is
    not blank; short rows are not an error (their missing cells are
    filled). *)
Theorem loaders_blank_and_short_lines data_dir w :
  (∀ s, files w !! join (join data_dir "ml-1m") "ratings.dat" = Some (Text s) →
        tolerable_file 4 s = true →
        ∃ df, load_movielens_ratings data_dir w = Some (Ok df) ∧
              column_names df = ratings_columns ∧
              nrows df = length (nonblank_lines s) ∧
              Forall (λ c, length c.2 = length (nonblank_lines s))
                (columns df)) ∧
  (∀ s, files w !! join (join data_dir "ml-1m") "users.dat" = Some (Text s) →
        tolerable_file 5 s = true →
        ∃ df, load_movielens_users data_dir w = Some (Ok df) ∧
              column_names df = users_columns ∧
              nrows df = length (nonblank_lines s) ∧
              Forall (λ c, length c.2 = length (nonblank_lines s))
                (columns df)) ∧
  (∀ s, files w !! join (join data_dir "ml-1m") "movies.dat" = Some (Text s) →
        tolerable_file 3 s = true →
        ∃ df, load_movielens_movies data_dir w = Some (Ok df) ∧
              column_names df = movies_columns ∧
              nrows df = length (nonblank_lines s) ∧
              Forall (λ c, length c.2 = length (nonblank_lines s))
                (columns df)).
Proof.
  split_and!; intros s Hfile Htol.
  - by apply (read_csv_tolerable _ ratings_columns s w Hfile).
  - by apply (read_csv_tolerable _ users_columns s w Hfile).
  - by apply (read_csv_tolerable _ movies_columns s w Hfile).
Qed.

Lemma overlong_file_rows k s :
  overlong_file k s = true →
  ∃ first rows,
    data_rows s = first :: rows ∧ (length first ≤ k)%nat ∧
    Exists (λ row, (k < length row)%nat) rows.
Proof.
  unfold overlong_file, data_rows, raw_rows.
  destruct (readlines s) as [|line0 lines]; [done|].
  cbv zeta. rewrite !andb_true_iff, !Nat.leb_le.
  intros [[H2 Hk] Hlong]. rewrite fmap_cons.
  exists (split_fields (strip line0)),
    (filter (λ row, is_blank_row row = false)
       ((λ line, split_fields (strip line)) <$> lines)).
  split.
  { apply filter_cons_True.
    destruct (split_fields (strip line0)) as [|f [|g row]];
      simpl in H2; [lia|lia|done]. }
  split; [done|].
  apply existsb_exists in Hlong as (line & Hin%list_elem_of_In & Hlen).
  apply Nat.ltb_lt in Hlen.
  apply Exists_exists. exists (split_fields (strip line)). split; [|done].
  apply list_elem_of_filter. split.
  - destruct (split_fields (strip line)) as [|f [|g row]];
      simpl in Hlen; [lia|lia|done].
  - apply list_elem_of_fmap. by exists line.
Qed.

Lemma read_csv_overlong p names s w :
  files w !! p = Some (Text s) →
  overlong_file (length names) s = true →
  read_csv p names w = Some (Raise ParserError).
Proof.
  intros Hfile Hlong.
  destruct (overlong_file_rows _ s Hlong) as (first & rows & Hrows & Hk & Hex).
  unfold read_csv, read_file. rewrite Hfile. simpl.
  unfold parse_csv, frame_of_rows. rewrite Hrows.
  replace (length first - length names)%nat with 0%nat by lia.
  assert (forallb (λ row, (length row <=? length names + 0)%nat)
            (first :: rows) = false) as ->; [|done].
  apply not_true_is_false. rewrite forallb_forall. intros Hall.
  apply Exists_exists in Hex as (row & Hin & Hlen).
  specialize (Hall row (or_intror (proj1 (list_elem_of_In _ _) Hin))).
  apply Nat.leb_le in Hall. lia.
Qed.

(** X7.  A line with too many fields is an error.  When the first line
    of the file a loader reads has at least two fields and no more than
    the loader has column names, and a later line has more, the loader
    raises ParserError: no frame is returned for the lines that were
    fine. *)
Theorem loaders_too_many_fields data_dir w :
  (∀ s, files w !! join (join data_dir "ml-1m") "ratings.dat" = Some (Text s) →
        overlong_file 4 s = true →
        load_movielens_ratings data_dir w = Some (Raise ParserError)) ∧
  (∀ s, files w !! join (join data_dir "ml-1m") "users.dat" = Some (Text s) →
        overlong_file 5 s = true →
        load_movielens_users data_dir w = Some (Raise ParserError)) ∧
  (∀ s, files w !! join (join data_dir "ml-1m") "movies.dat" = Some (Text s) →
        overlong_file 3 s = true →
        load_movielens_movies data_dir w = Some (Raise ParserError)).
Proof.
  split_and!; intros s Hfile Hlong.
  - by apply (read_csv_overlong _ ratings_columns s w Hfile).
  - by apply (read_csv_overlong _ users_columns s w Hfile).
  - by apply (read_csv_overlong _ movies_columns s w Hfile).
Qed.

Lemma loaders_blank_and_short_lines_witness :
  ∃ df, load_movielens_users ["data"] (world_with_users ragged_users)
          = Some (Ok df) ∧
        column_names df = users_columns ∧
        nrows df = 2%nat ∧
        Forall (λ c, length c.2 = 2%nat) (columns df).
Proof.
  apply (proj1 (proj2 (loaders_blank_and_short_lines ["data"]
                         (world_with_users ragged_users))) ragged_users);
    vm_compute; reflexivity.
Defined.

Lemma loaders_too_many_fields_witness :
  load_movielens_users ["data"] (world_with_users overlong_users)
  = Some (Raise ParserError).
Proof.
  apply (proj1 (proj2 (loaders_too_many_fields ["data"]
                         (world_with_users overlong_users))) overlong_users);
    vm_compute; reflexivity.
Defined.

(** ** [create_user_splits]: what a call changes *)

Section create_user_splits_steps.
Context `{RandomState}.

Lemma create_user_splits_steps dataframe data_dir seed w :
  create_user_splits dataframe data_dir seed w =
  match (if negb (path_exists w data_dir) then makedirs data_dir
         else mret ()) w with
  | (Raise e, w1) => (Raise e, w1)
  | (Ok _, w1) =>
      match user_splits dataframe seed with
      | Raise e => (Raise e, w1)
      | Ok (train, val, test) =>
          (write_file (join data_dir "train_users.csv") (user_file train);;
           write_file (join data_dir "val_users.csv") (user_file val);;
           write_file (join data_dir "test_users.csv") (user_file test)) w1
      end
  end.
Proof.
  unfold create_user_splits. rewrite run_bind. cbn [os_path_exists].
  rewrite run_bind.
  destruct ((if negb (path_exists w data_dir) then makedirs data_dir
             else mret ()) w) as [[[]|e] w1]; [|done].
  rewrite run_bind. unfold lift at 1.
  destruct (user_splits dataframe seed) as [[[train val] test]|e]; [|done].
  by rewrite !to_csv_frame_of_array.
Qed.
End create_user_splits_steps.

Lemma write_file_Ok_inv p c w w' :
  write_file p c w = (Ok (), w') →
  w' = with_files (<[p := c]> (files w)) w ∧
  isdir w p = false ∧ isdir w (dirname p) = true.
Proof.
  unfold write_file. destruct (isdir w p); [done|].
  destruct (isdir w (dirname p)); [by intros [= <-]|].
  by destruct (isfile w (dirname p)).
Qed.

(** The three writes, when they all succeed. *)
Lemma split_writes_Ok data_dir train val test w w' :
  (write_file (join data_dir "train_users.csv") (user_file train);;
   write_file (join data_dir "val_users.csv") (user_file val);;
   write_file (join data_dir "test_users.csv") (user_file test)) w
  = (Ok (), w') →
  w' = with_split_files data_dir train val test w ∧
  isdir w data_dir = true ∧
  (∀ name, name ∈ split_names → isdir w (join data_dir name) = false).
Proof.
  intros ([] & w1 & H1 & Hrun)%bind_Ok_inv.
  apply bind_Ok_inv in Hrun as ([] & w2 & H2 & H3).
  apply write_file_Ok_inv in H1 as (-> & Hn1 & Hd).
  apply write_file_Ok_inv in H2 as (-> & Hn2 & _).
  apply write_file_Ok_inv in H3 as (-> & Hn3 & _).
  rewrite dirname_join in Hd. split; [done|]. split; [done|].
  intros name Hname. unfold split_names in Hname.
  rewrite !elem_of_cons, elem_of_nil in Hname.
  by destruct Hname as [->|[->|[->|[]]]].
Qed.

(** The three writes succeed where the directory is one and no
    directory sits where a file goes. *)
Lemma split_writes_run data_dir train val test w :
  isdir w data_dir = true →
  (∀ name, name ∈ split_names → isdir w (join data_dir name) = false) →
  (write_file (join data_dir "train_users.csv") (user_file train);;
   write_file (join data_dir "val_users.csv") (user_file val);;
   write_file (join data_dir "test_users.csv") (user_file test)) w
  = (Ok (), with_split_files data_dir train val test w).
Proof.
  intros Hd Hn. rewrite run_bind.
  rewrite write_file_Ok; [|apply Hn; set_solver|by rewrite dirname_join].
  rewrite run_bind, write_file_Ok;
    [|apply Hn; set_solver|by rewrite dirname_join].
  rewrite write_file_Ok; [|apply Hn; set_solver|by rewrite dirname_join].
  done.
Qed.

Lemma with_split_files_twice data_dir train val test w :
  with_split_files data_dir train val test
    (with_split_files data_dir train val test w)
  = with_split_files data_dir train val test w.
Proof.
  unfold with_split_files, with_files. cbn [dirs files net trace].
  f_equal. apply map_eq. intros p.
  destruct (decide (join data_dir "test_users.csv" = p));
    destruct (decide (join data_dir "val_users.csv" = p));
    destruct (decide (join data_dir "train_users.csv" = p));
    by simplify_map_eq.
Qed.

Section split_footprint.
Context `{RandomState}.

(** X8.  What a successful call changes.  It writes (or overwrites,
    whatever they held) exactly the three split files with the three
    arrays computed by lines 126 to 130, leaves every other file, the
    trace and the network as they were, removes no directory, and adds
    directories only on the way to [data_dir]. *)
Theorem create_user_splits_footprint dataframe data_dir seed w w' :
  create_user_splits dataframe data_dir seed w = (Ok (), w') →
  ∃ train val test,
    user_splits dataframe seed = Ok (train, val, test) ∧
    files w' =
      <[join data_dir "test_users.csv" := user_file test]>
        (<[join data_dir "val_users.csv" := user_file val]>
           (<[join data_dir "train_users.csv" := user_file train]>
              (files w))) ∧
    trace w' = trace w ∧ net w' = net w ∧
    dirs w ⊆ dirs w' ∧
    (∀ q, q ∈ dirs w' → q ∈ dirs w ∨ q `prefix_of` data_dir).
Proof.
  rewrite create_user_splits_steps.
  pose proof (ensure_dir_adds_prefixes data_dir (path_exists w data_dir) w)
    as [(Hfiles & Hnet & Htrace) Hdirs].
  pose proof (ensure_dir_grows data_dir (path_exists w data_dir) w)
    as [Hgrow _].
  destruct ((if negb (path_exists w data_dir) then makedirs data_dir
             else mret ()) w) as [[[]|e] w1]; [|done].
  cbn [snd] in *.
  destruct (user_splits dataframe seed) as [[[train val] test]|e]; [|done].
  intros (-> & _ & _)%split_writes_Ok.
  exists train, val, test. unfold with_split_files.
  cbn [dirs files net trace with_files]. by rewrite Hfiles.
Qed.

(** X9.  Calling twice is calling once.  After a call that returned
    normally, the same call again returns normally and leaves the world
    exactly as the first call left it. *)
Theorem create_user_splits_twice dataframe data_dir seed w w1 :
  create_user_splits dataframe data_dir seed w = (Ok (), w1) →
  create_user_splits dataframe data_dir seed w1 = (Ok (), w1).
Proof.
  rewrite !create_user_splits_steps.
  destruct ((if negb (path_exists w data_dir) then makedirs data_dir
             else mret ()) w) as [[[]|e] wa]; [|done].
  destruct (user_splits dataframe seed) as [[[train val] test]|e]; [|done].
  intros (-> & Hd & Hn)%split_writes_Ok.
  assert (path_exists (with_split_files data_dir train val test wa) data_dir
          = true) as ->.
  { unfold path_exists. apply orb_true_iff. by left. }
  cbn [negb mret M_ret].
  rewrite split_writes_run by done.
  by rewrite with_split_files_twice.
Qed.
End split_footprint.

Lemma create_user_splits_footprint_witness :
  ∃ train val test,
    @user_splits rotation (users_frame (int_ids 1 5)) 42
      = Ok (train, val, test) ∧
    files (@create_user_splits rotation (users_frame (int_ids 1 5))
             ["data"; "splits"] 42 world_with_old_splits).2 =
      <[join ["data"; "splits"] "test_users.csv" := user_file test]>
        (<[join ["data"; "splits"] "val_users.csv" := user_file val]>
           (<[join ["data"; "splits"] "train_users.csv" := user_file train]>
              (files world_with_old_splits))) ∧
    trace (@create_user_splits rotation (users_frame (int_ids 1 5))
             ["data"; "splits"] 42 world_with_old_splits).2
      = trace world_with_old_splits ∧
    net (@create_user_splits rotation (users_frame (int_ids 1 5))
           ["data"; "splits"] 42 world_with_old_splits).2
      = net world_with_old_splits ∧
    dirs world_with_old_splits
      ⊆ dirs (@create_user_splits rotation (users_frame (int_ids 1 5))
                ["data"; "splits"] 42 world_with_old_splits).2 ∧
    (∀ q, q ∈ dirs (@create_user_splits rotation (users_frame (int_ids 1 5))
                      ["data"; "splits"] 42 world_with_old_splits).2 →
          q ∈ dirs world_with_old_splits ∨ q `prefix_of` ["data"; "splits"]).
Proof.
  apply (@create_user_splits_footprint rotation). vm_compute. reflexivity.
Defined.

Lemma create_user_splits_twice_witness :
  @create_user_splits rotation (users_frame (int_ids 1 5)) ["data"; "splits"] 42
    (@create_user_splits rotation (users_frame (int_ids 1 5))
       ["data"; "splits"] 42 empty_world).2
  = (Ok (),
     (@create_user_splits rotation (users_frame (int_ids 1 5))
        ["data"; "splits"] 42 empty_world).2).
Proof.
  apply (@create_user_splits_twice rotation _ _ _ empty_world).
  vm_compute. reflexivity.
Defined.

(** ** [create_user_splits]: the split is positional *)

Lemma unique_from_fmap (f : value → value) `{!Inj (=) (=) f} seen cells :
  unique_from (f <$> seen) (f <$> cells) = f <$> unique_from seen cells.
Proof.
  revert seen. induction cells as [|v cells IH]; intros seen; [done|].
  cbn [fmap list_fmap unique_from].
  destruct (decide (v ∈ seen)) as [Hin|Hout].
  - rewrite decide_True by (by apply list_elem_of_fmap_2). apply IH.
  - rewrite decide_False.
    + rewrite fmap_cons. f_equal. apply (IH (v :: seen)).
    + intros (v' & Heq & Hv')%list_elem_of_fmap.
      apply (inj f) in Heq as ->. done.
Qed.

Lemma unique_fmap (f : value → value) `{!Inj (=) (=) f} cells :
  unique (f <$> cells) = f <$> unique cells.
Proof. apply (unique_from_fmap f []). Qed.

Lemma safe_indexing_fmap {A B} (f : A → B) (array : list A) indices :
  safe_indexing (f <$> array) indices =
  match safe_indexing array indices with
  | Ok xs => Ok (f <$> xs)
  | Raise e => Raise e
  end.
Proof.
  unfold safe_indexing.
  assert (mapM (λ i, (f <$> array) !! i) indices
          = fmap (fmap f) (mapM (λ i, array !! i) indices)) as ->.
  { induction indices as [|i indices IH]; [done|].
    cbn [mapM]. rewrite IH, list_lookup_fmap.
    destruct (array !! i); [|done].
    by destruct (mapM (λ i, array !! i) indices). }
  by destruct (mapM (λ i, array !! i) indices).
Qed.

Section renaming.
Context `{RandomState}.

Lemma train_test_split_fmap {A B} (f : A → B) (array : list A) test_size seed :
  train_test_split (f <$> array) test_size seed =
  match train_test_split array test_size seed with
  | Ok (train, test) => Ok (f <$> train, f <$> test)
  | Raise e => Raise e
  end.
Proof.
  unfold train_test_split. rewrite length_fmap.
  destruct (validate_shuffle_split _ _) as [[n_train n_test]|e]; [|done].
  cbn [mbind result_bind].
  destruct (check_random_state seed) as [rng|e]; [|done].
  cbn [mbind result_bind]. rewrite !safe_indexing_fmap.
  destruct (safe_indexing array (take _ (drop _ _))) as [train|e]; [|done].
  cbn [mbind result_bind].
  by destruct (safe_indexing array (take _ _)) as [test|e].
Qed.

Lemma user_splits_fmap (f : value → value) `{!Inj (=) (=) f}
  dataframe1 dataframe2 cells seed :
  getitem dataframe1 "user_id" = Ok (Series cells) →
  getitem dataframe2 "user_id" = Ok (Series (f <$> cells)) →
  user_splits dataframe2 seed =
  match user_splits dataframe1 seed with
  | Ok (train, val, test) => Ok (f <$> train, f <$> val, f <$> test)
  | Raise e => Raise e
  end.
Proof.
  intros Hget1 Hget2. unfold user_splits. rewrite Hget1, Hget2.
  cbn [mbind result_bind selection_unique].
  rewrite unique_fmap by done. rewrite train_test_split_fmap.
  destruct (train_test_split (unique cells) _ seed) as [[train temp]|e];
    [|done].
  cbn [mbind result_bind]. rewrite train_test_split_fmap.
  by destruct (train_test_split temp _ seed) as [[val test]|e].
Qed.

(** X10.  The split does not look at the identifiers.  If the column of
    a second frame is the column of a first one under a one-to-one
    renaming of the values, then wherever the call on the first frame
    returns normally so does the call on the second, and each of its
    three files is the file of the first call, renamed: which positions
    go to which file does not depend on the values. *)
Theorem create_user_splits_renaming (f : value → value) `{!Inj (=) (=) f}
  dataframe1 dataframe2 cells data_dir seed w w1 :
  getitem dataframe1 "user_id" = Ok (Series cells) →
  getitem dataframe2 "user_id" = Ok (Series (fmap (M:=list) f cells)) →
  create_user_splits dataframe1 data_dir seed w = (Ok (), w1) →
  ∃ w2,
    create_user_splits dataframe2 data_dir seed w = (Ok (), w2) ∧
    ∀ name, name ∈ split_names →
      file_ids w2 (join data_dir name)
      = fmap (M:=option) (fmap (M:=list) f)
          (file_ids w1 (join data_dir name)).
Proof.
  intros Hget1 Hget2. rewrite !create_user_splits_steps.
  rewrite (user_splits_fmap f dataframe1 dataframe2 cells seed Hget1 Hget2).
  destruct ((if negb (path_exists w data_dir) then makedirs data_dir
             else mret ()) w) as [[[]|e] wa]; [|done].
  destruct (user_splits dataframe1 seed) as [[[train val] test]|e]; [|done].
  intros (-> & Hd & Hn)%split_writes_Ok.
  rewrite split_writes_run by done. eexists. split; [done|].
  intros name Hname.
  destruct (file_ids_with_split_files data_dir train val test wa)
    as (Ha1 & Hb1 & Hc1).
  destruct (file_ids_with_split_files data_dir (f <$> train) (f <$> val)
              (f <$> test) wa) as (Ha2 & Hb2 & Hc2).
  unfold split_names in Hname. rewrite !elem_of_cons, elem_of_nil in Hname.
  destruct Hname as [->|[->|[->|[]]]].
  - by rewrite Ha1, Ha2.
  - by rewrite Hb1, Hb2.
  - by rewrite Hc1, Hc2.
Qed.
End renaming.

Lemma shift_ids_inj : Inj (=) (=) shift_ids.
Proof.
  intros [z1|s1|] [z2|s2|] Heq; simpl in Heq; try done.
  injection Heq as Heq. f_equal. lia.
Qed.

Lemma create_user_splits_renaming_witness :
  ∃ w2,
    @create_user_splits rotation (users_frame (int_ids 1001 5))
      ["data"; "splits"] 42 empty_world = (Ok (), w2) ∧
    ∀ name, name ∈ split_names →
      file_ids w2 (join ["data"; "splits"] name)
      = fmap (M:=option) (fmap (M:=list) shift_ids)
          (file_ids
             (@create_user_splits rotation (users_frame (int_ids 1 5))
                ["data"; "splits"] 42 empty_world).2
             (join ["data"; "splits"] name)).
Proof.
  apply (@create_user_splits_renaming rotation shift_ids shift_ids_inj
           (users_frame (int_ids 1 5)) (users_frame (int_ids 1001 5))
           (int_ids 1 5)); vm_compute; reflexivity.
Defined.

(** ** [create_user_splits]: sizes, and when it fails *)

Lemma split_sizes (n : nat) :
  (3 ≤ n)%nat →
  (n_train_of n + n_val_of n + n_test_of n = n ∧
   5 * n_train_of n ≤ 3 * n < 5 * n_train_of n + 5 ∧
   n_val_of n ≤ n_test_of n ≤ n_val_of n + 1 ∧
   1 ≤ n_val_of n)%nat.
Proof.
  intros Hn. unfold n_train_of, n_val_of, n_test_of, n_temp.
  pose proof (Nat.div_mod_eq (2 * n + 4) 5) as H5.
  pose proof (Nat.mod_upper_bound (2 * n + 4) 5 ltac:(lia)) as H5'.
  set (t := ((2 * n + 4) / 5)%nat) in *.
  pose proof (Nat.div_mod_eq (t + 1) 2) as H2.
  pose proof (Nat.mod_upper_bound (t + 1) 2 ltac:(lia)) as H2'.
  set (u := ((t + 1) / 2)%nat) in *.
  lia.
Qed.

Section create_user_splits_outcomes.
Context `{RandomState}.

(** X11.  The proportions for any size.  With n distinct identifiers,
    n at least 3, the three files hold n identifiers in all; the train
    file holds the integer part of 0.6 n, the test file as many as the
    validation file or one more, and none is empty. *)
Theorem create_user_splits_sizes dataframe cells data_dir seed w :
  getitem dataframe "user_id" = Ok (Series cells) →
  (3 ≤ length (unique cells))%nat →
  0 ≤ seed < 2 ^ 32 →
  writable w data_dir = true →
  ∃ w' train val test,
    create_user_splits dataframe data_dir seed w = (Ok (), w') ∧
    file_ids w' (join data_dir "train_users.csv") = Some train ∧
    file_ids w' (join data_dir "val_users.csv") = Some val ∧
    file_ids w' (join data_dir "test_users.csv") = Some test ∧
    (length train + length val + length test = length (unique cells) ∧
     5 * length train ≤ 3 * length (unique cells) < 5 * length train + 5 ∧
     length val ≤ length test ≤ length val + 1 ∧
     1 ≤ length val)%nat.
Proof.
  intros Hget Hn Hseed Hw.
  destruct (user_splits_Ok dataframe cells seed Hget Hn Hseed)
    as (train & val & test & Hsplit & _ & Htrain & Hval & Htest).
  destruct (create_user_splits_run dataframe data_dir seed w Hw)
    as (w1 & _ & _ & _ & Hrun).
  rewrite Hsplit in Hrun.
  destruct (file_ids_with_split_files data_dir train val test w1)
    as (? & ? & ?).
  exists (with_split_files data_dir train val test w1), train, val, test.
  rewrite Htrain, Hval, Htest.
  split_and!; try done; by apply split_sizes.
Qed.

(** Lines 126 to 130 compute a split exactly when the frame has one
    [user_id] column with three distinct values or more and the seed is
    in range; otherwise they raise as follows. *)
Lemma user_splits_outcome dataframe seed :
  match getitem dataframe "user_id" with
  | Raise e => user_splits dataframe seed = Raise e
  | Ok (SubFrame _) => user_splits dataframe seed = Raise AttributeError
  | Ok (Series cells) =>
      if decide ((3 ≤ length (unique cells))%nat ∧ 0 ≤ seed < 2 ^ 32)
      then ∃ ids, user_splits dataframe seed = Ok ids
      else user_splits dataframe seed = Raise ValueError
  end.
Proof.
  destruct (getitem dataframe "user_id") as [[cells|cols]|e] eqn:Hget.
  - case_decide as Hok.
    + destruct Hok as [Hn Hseed].
      destruct (user_splits_Ok dataframe cells seed Hget Hn Hseed)
        as (train & val & test & -> & _). by eexists.
    + destruct (decide (0 ≤ seed < 2 ^ 32)) as [Hseed|Hseed].
      * apply (user_splits_small dataframe cells seed Hget). lia.
      * by apply (user_splits_seed dataframe cells).
  - unfold user_splits. by rewrite Hget.
  - unfold user_splits. by rewrite Hget.
Qed.

(** X12.  Exactly when the call succeeds.  On a usable target directory
    the call returns normally if and only if the frame has exactly one
    [user_id] column, that column has at least three distinct values,
    and the seed is from 0 to 2^32 - 1. *)
Theorem create_user_splits_succeeds_iff dataframe data_dir seed w :
  writable w data_dir = true →
  (create_user_splits dataframe data_dir seed w).1 = Ok () ↔
  ∃ cells, getitem dataframe "user_id" = Ok (Series cells) ∧
           (3 ≤ length (unique cells))%nat ∧ 0 ≤ seed < 2 ^ 32.
Proof.
  intros Hw.
  destruct (create_user_splits_run dataframe data_dir seed w Hw)
    as (w1 & _ & _ & _ & ->).
  pose proof (user_splits_outcome dataframe seed) as Hout.
  destruct (getitem dataframe "user_id") as [[cells|cols]|e] eqn:Hget.
  - case_decide as Hok.
    + destruct Hout as [[[train val] test] ->]. split; [|done].
      intros _. exists cells. by destruct Hok.
    + rewrite Hout. split; [done|].
      intros (cells' & [= <-] & Hn & Hseed). tauto.
  - rewrite Hout. split; [done|]. by intros (? & ? & _).
  - rewrite Hout. split; [done|]. by intros (? & ? & _).
Qed.

(** X13.  How the call fails on a usable target directory.  With
    several columns named [user_id] it raises AttributeError; with one
    such column and a seed outside 0 to 2^32 - 1 it raises ValueError.
    In both cases no file is written and nothing is printed. *)
Theorem create_user_splits_error_kinds dataframe data_dir seed w :
  writable w data_dir = true →
  ((1 < length (filter (λ c, c.1 = "user_id") (columns dataframe)))%nat →
   ∃ w', create_user_splits dataframe data_dir seed w
           = (Raise AttributeError, w') ∧
         files w' = files w ∧ trace w' = trace w) ∧
  (∀ cells,
     getitem dataframe "user_id" = Ok (Series cells) →
     ¬ (0 ≤ seed < 2 ^ 32) →
     ∃ w', create_user_splits dataframe data_dir seed w
             = (Raise ValueError, w') ∧
           files w' = files w ∧ trace w' = trace w).
Proof.
  intros Hw.
  destruct (create_user_splits_run dataframe data_dir seed w Hw)
    as (w1 & (Hfiles & _ & Htrace) & _ & _ & Hrun).
  split.
  - intros Hcols. exists w1. split; [|done]. rewrite Hrun.
    unfold user_splits, getitem.
    destruct (filter _ (columns dataframe)) as [|c [|c' cs]];
      simpl in Hcols; [lia|lia|done].
  - intros cells Hget Hseed. exists w1. split; [|done].
    by rewrite Hrun, (user_splits_seed dataframe cells seed Hget Hseed).
Qed.

(** X14.  A regular file in the place of the target directory.  Then
    [os.path.exists] holds and no directory is created; whatever the
    frame and the seed, the call raises (from the split, or from the
    first [to_csv], which cannot open a file below a regular file) and
    the world is left exactly as it was. *)
Theorem create_user_splits_target_is_file dataframe data_dir seed w :
  isfile w data_dir = true →
  isdir w data_dir = false →
  well_formed w = true →
  ∃ e, create_user_splits dataframe data_dir seed w = (Raise e, w).
Proof.
  intros Hfile Hdir Hwf.
  rewrite create_user_splits_steps.
  unfold path_exists. rewrite Hfile, orb_true_r. cbn [negb mret M_ret].
  destruct (user_splits dataframe seed) as [[[train val] test]|e];
    [|by exists e].
  exists NotADirectoryError.
  rewrite run_bind. unfold write_file at 1.
  assert (isdir w (join data_dir "train_users.csv") = false) as ->.
  { apply not_true_is_false. intros Hd.
    pose proof (well_formed_prefix w _ data_dir Hwf Hd) as Hpre.
    rewrite Hpre in Hdir; [done|]. by apply prefix_app_r. }
  by rewrite dirname_join, Hdir, Hfile.
Qed.
End create_user_splits_outcomes.

Lemma create_user_splits_sizes_witness :
  ∃ w' train val test,
    @create_user_splits rotation (users_frame (int_ids 1 7))
      ["data"; "splits"] 42 empty_world = (Ok (), w') ∧
    file_ids w' (join ["data"; "splits"] "train_users.csv") = Some train ∧
    file_ids w' (join ["data"; "splits"] "val_users.csv") = Some val ∧
    file_ids w' (join ["data"; "splits"] "test_users.csv") = Some test ∧
    (length train + length val + length test
       = length (unique (int_ids 1 7)) ∧
     5 * length train ≤ 3 * length (unique (int_ids 1 7))
       < 5 * length train + 5 ∧
     length val ≤ length test ≤ length val + 1 ∧
     1 ≤ length val)%nat.
Proof.
  apply (@create_user_splits_sizes rotation);
    [reflexivity|vm_compute; lia|lia|reflexivity].
Defined.

Lemma create_user_splits_succeeds_iff_witness :
  (@create_user_splits rotation (users_frame (int_ids 1 5))
     ["data"; "splits"] 42 empty_world).1 = Ok () ↔
  ∃ cells, getitem (users_frame (int_ids 1 5)) "user_id" = Ok (Series cells) ∧
           (3 ≤ length (unique cells))%nat ∧ 0 ≤ 42 < 2 ^ 32.
Proof.
  apply (@create_user_splits_succeeds_iff rotation). reflexivity.
Defined.

Lemma create_user_splits_error_kinds_witness :
  (∃ w', @create_user_splits rotation
           {| index := [[VInt 0]];
              columns := [("user_id", [VInt 1]); ("user_id", [VInt 2])] |}
           ["data"; "splits"] 42 empty_world = (Raise AttributeError, w') ∧
         files w' = files empty_world ∧ trace w' = trace empty_world) ∧
  (∃ w', @create_user_splits rotation (users_frame (int_ids 1 5))
           ["data"; "splits"] (2 ^ 32) empty_world = (Raise ValueError, w') ∧
         files w' = files empty_world ∧ trace w' = trace empty_world).
Proof.
  split.
  - apply (proj1 (@create_user_splits_error_kinds rotation _
                    ["data"; "splits"] 42 empty_world eq_refl)).
    vm_compute. lia.
  - apply (proj2 (@create_user_splits_error_kinds rotation
                    (users_frame (int_ids 1 5))
                    ["data"; "splits"] (2 ^ 32) empty_world eq_refl)
             (int_ids 1 5)); [reflexivity|lia].
Defined.

Lemma create_user_splits_target_is_file_witness :
  ∃ e, @create_user_splits rotation (users_frame (int_ids 1 5))
         ["data"; "splits"] 42 world_with_file_target
       = (Raise e, world_with_file_target).
Proof.
  apply (@create_user_splits_target_is_file rotation);
    vm_compute; reflexivity.
Defined.
